(** * Sculpt smoothing: a shallow embedding of [sculpt_smooth.c]

    The development follows
    [source/blender/editors/sculpt_paint/sculpt_smooth.c]: the neighbour
    averaging primitives, the directional four-neighbour average, the
    smoothing orchestrator [SCULPT_smooth] with its per-node kernel, and
    the two passes of the surface (HC) smoothing brush.

    Number model.  A C [float] is idealised as an exact rational ([Q]):
    rounding, infinities and NaN are outside the model, every arithmetic
    operation is exact.  A C [int] is a [Z]; the counters of this file
    ([total], [neighbor_count], [count], [iteration]) stay far below
    2^31, so no wrap-around is written.  Equality of computed floats is
    [Qeq] ([==]); where the source copies a value, Leibniz equality holds
    and is stated. *)

From Stdlib Require Import ZArith QArith Qround List Bool String Lia Lqa.
Import ListNotations.

Local Open Scope Z_scope.
Local Open Scope Q_scope.

(** ** Scalars *)

(** The C type [float]. *)
#[warning="-notation-for-abbreviation"]
Notation float := Q (only parsing).

(** [a < b] and [a > b] on floats, as the C comparisons. *)
Definition float_lt (a b : float) : bool := negb (Qle_bool b a).
Definition float_gt (a b : float) : bool := float_lt b a.

(** [(float)n] for an [int] n. *)
Definition int_to_float (n : Z) : float := inject_Z n.

(** [(int)x]: the C conversion truncates toward zero. *)
Definition float_to_int (x : float) : Z := Z.quot (Qnum x) (Zpos (Qden x)).

(** Modelled from the spec: the [CLAMP(a, b, c)] macro of
    [BLI_utildefines.h] is not part of the sources at hand; the spec says
    the value is clamped to the interval [[b, c]].  The macro assigns [b]
    when [a < b], else [c] when [a > c]. *)
Definition CLAMP (a b c : float) : float :=
  if float_lt a b then b else if float_gt a c then c else a.

(** Modelled from the spec: [clamp_f(value, min, max)] of the math library
    is not part of the sources at hand; the spec says the falloff strength
    is clamped to [[0, 1]].  It returns [max] when [value > max], else
    [min] when [value < min]. *)
Definition clamp_f (value min max : float) : float :=
  if float_gt value max then max else if float_lt value min then min else value.

(** ** Vectors ([float[3]], [float[4]]) and the [BLI_math] helpers used *)

Record vec3 : Type := V3 { v3_x : float; v3_y : float; v3_z : float }.
Record vec4 : Type :=
  V4 { v4_x : float; v4_y : float; v4_z : float; v4_w : float }.

Definition veq (a b : vec3) : Prop :=
  v3_x a == v3_x b /\ v3_y a == v3_y b /\ v3_z a == v3_z b.

Infix "=v=" := veq (at level 70, no associativity).

(** The helpers below come from [BLI_math_vector]; the ones writing through
    their first argument return the new value of that argument. *)

Definition zero_v3 : vec3 := V3 0 0 0.
Definition zero_v4 : vec4 := V4 0 0 0 0.
Definition copy_v3_v3 (a : vec3) : vec3 := a.
Definition copy_v4_v4 (a : vec4) : vec4 := a.

(** [add_v3_v3(r, a)]: [r += a]. *)
Definition add_v3_v3 (r a : vec3) : vec3 :=
  V3 (v3_x r + v3_x a) (v3_y r + v3_y a) (v3_z r + v3_z a).

(** [add_v3_v3v3(r, a, b)]: [r = a + b]. *)
Definition add_v3_v3v3 (a b : vec3) : vec3 :=
  V3 (v3_x a + v3_x b) (v3_y a + v3_y b) (v3_z a + v3_z b).

(** [sub_v3_v3(r, a)]: [r -= a]. *)
Definition sub_v3_v3 (r a : vec3) : vec3 :=
  V3 (v3_x r - v3_x a) (v3_y r - v3_y a) (v3_z r - v3_z a).

(** [sub_v3_v3v3(r, a, b)]: [r = a - b]. *)
Definition sub_v3_v3v3 (a b : vec3) : vec3 :=
  V3 (v3_x a - v3_x b) (v3_y a - v3_y b) (v3_z a - v3_z b).

(** [mul_v3_fl(r, f)]: [r *= f]. *)
Definition mul_v3_fl (r : vec3) (f : float) : vec3 :=
  V3 (v3_x r * f) (v3_y r * f) (v3_z r * f).

(** [mul_v3_v3fl(r, a, f)]: [r = a * f]. *)
Definition mul_v3_v3fl (a : vec3) (f : float) : vec3 :=
  V3 (v3_x a * f) (v3_y a * f) (v3_z a * f).

(** [madd_v3_v3fl(r, a, f)]: [r += a * f]. *)
Definition madd_v3_v3fl (r a : vec3) (f : float) : vec3 :=
  V3 (v3_x r + v3_x a * f) (v3_y r + v3_y a * f) (v3_z r + v3_z a * f).

(** [madd_v3_v3v3fl(r, a, b, f)]: [r = a + b * f]. *)
Definition madd_v3_v3v3fl (a b : vec3) (f : float) : vec3 :=
  V3 (v3_x a + v3_x b * f) (v3_y a + v3_y b * f) (v3_z a + v3_z b * f).

Definition dot_v3v3 (a b : vec3) : float :=
  v3_x a * v3_x b + v3_y a * v3_y b + v3_z a * v3_z b.

(** [add_v4_v4(r, a)]: [r += a]. *)
Definition add_v4_v4 (r a : vec4) : vec4 :=
  V4 (v4_x r + v4_x a) (v4_y r + v4_y a) (v4_z r + v4_z a) (v4_w r + v4_w a).

(** [mul_v4_v4fl(r, a, f)]: [r = a * f]. *)
Definition mul_v4_v4fl (a : vec4) (f : float) : vec4 :=
  V4 (v4_x a * f) (v4_y a * f) (v4_z a * f) (v4_w a * f).

(** ** The sculpt session *)

(** A vertex handle.  The three mesh backends use an index or a pointer;
    only equality of handles is used. *)
Definition SculptIdx : Type := Z.

Inductive PBVHType : Type := PBVH_FACES | PBVH_GRIDS | PBVH_BMESH | PBVH_TRIMESH.

Definition PBVHType_eqb (a b : PBVHType) : bool :=
  match a, b with
  | PBVH_FACES, PBVH_FACES | PBVH_GRIDS, PBVH_GRIDS
  | PBVH_BMESH, PBVH_BMESH | PBVH_TRIMESH, PBVH_TRIMESH => true
  | _, _ => false
  end.

(** The part of [SculptSession] (with its stroke cache and the vertex
    arrays it points to) that [sculpt_smooth.c] reads and writes.  The
    accessors [SCULPT_vertex_co_get] and friends, the neighbour iterator
    and the boundary classifier live in [sculpt.c]; they are taken here as
    the tables they read. *)
Record SculptSession : Type := {
  (** [BKE_pbvh_type(ss->pbvh)] *)
  ss_pbvh_type : PBVHType;
  (** [ss->pmap != NULL] *)
  ss_pmap : bool;
  (** vertex positions, [vd.co] *)
  ss_co : SculptIdx -> vec3;
  (** vertex and face normals, [vd.no] and [vd.fno] *)
  ss_no : SculptIdx -> vec3;
  ss_fno : SculptIdx -> vec3;
  (** [vd.mask != NULL], and the mask layer *)
  ss_has_mask : bool;
  ss_mask : SculptIdx -> float;
  (** vertex colors *)
  ss_color : SculptIdx -> vec4;
  (** [vd.mvert != NULL], and the [ME_VERT_PBVH_UPDATE] bit of its flag *)
  ss_has_mvert : bool;
  ss_pbvh_update : SculptIdx -> bool;
  (** the sequence produced by [SCULPT_VERTEX_NEIGHBORS_ITER_BEGIN] *)
  ss_neighbors : SculptIdx -> list SculptIdx;
  (** the cached boundary flag *)
  ss_boundary : SculptIdx -> bool;
  (** original (pre-stroke) positions, [orig_data.co] *)
  ss_orig_co : SculptIdx -> vec3;
  (** [ss->cache->bstrength] *)
  cache_bstrength : float;
  (** [ss->cache->surface_smooth_laplacian_disp] *)
  cache_surface_smooth_laplacian_disp : SculptIdx -> vec3;
  (** [ss->cache->detail_directions] *)
  cache_detail_directions : SculptIdx -> vec3
}.

Definition SCULPT_vertex_co_get (ss : SculptSession) (index : SculptIdx) : vec3 :=
  ss_co ss index.
Definition SCULPT_vertex_mask_get (ss : SculptSession) (index : SculptIdx) : float :=
  ss_mask ss index.
Definition SCULPT_vertex_color_get (ss : SculptSession) (index : SculptIdx) : vec4 :=
  ss_color ss index.
Definition SCULPT_vertex_is_boundary (ss : SculptSession) (index : SculptIdx) : bool :=
  ss_boundary ss index.

(** Writing one cell of a per-vertex array. *)
Definition store {A : Type} (arr : SculptIdx -> A) (index : SculptIdx) (x : A)
  : SculptIdx -> A :=
  fun j => if Z.eqb j index then x else arr j.

Definition set_co (ss : SculptSession) (index : SculptIdx) (x : vec3) : SculptSession :=
  {| ss_pbvh_type := ss_pbvh_type ss; ss_pmap := ss_pmap ss;
     ss_co := store (ss_co ss) index x;
     ss_no := ss_no ss; ss_fno := ss_fno ss;
     ss_has_mask := ss_has_mask ss; ss_mask := ss_mask ss;
     ss_color := ss_color ss;
     ss_has_mvert := ss_has_mvert ss; ss_pbvh_update := ss_pbvh_update ss;
     ss_neighbors := ss_neighbors ss; ss_boundary := ss_boundary ss;
     ss_orig_co := ss_orig_co ss;
     cache_bstrength := cache_bstrength ss;
     cache_surface_smooth_laplacian_disp := cache_surface_smooth_laplacian_disp ss;
     cache_detail_directions := cache_detail_directions ss |}.

Definition set_mask (ss : SculptSession) (index : SculptIdx) (x : float) : SculptSession :=
  {| ss_pbvh_type := ss_pbvh_type ss; ss_pmap := ss_pmap ss;
     ss_co := ss_co ss;
     ss_no := ss_no ss; ss_fno := ss_fno ss;
     ss_has_mask := ss_has_mask ss; ss_mask := store (ss_mask ss) index x;
     ss_color := ss_color ss;
     ss_has_mvert := ss_has_mvert ss; ss_pbvh_update := ss_pbvh_update ss;
     ss_neighbors := ss_neighbors ss; ss_boundary := ss_boundary ss;
     ss_orig_co := ss_orig_co ss;
     cache_bstrength := cache_bstrength ss;
     cache_surface_smooth_laplacian_disp := cache_surface_smooth_laplacian_disp ss;
     cache_detail_directions := cache_detail_directions ss |}.

Definition set_laplacian_disp (ss : SculptSession) (buf : SculptIdx -> vec3)
  : SculptSession :=
  {| ss_pbvh_type := ss_pbvh_type ss; ss_pmap := ss_pmap ss;
     ss_co := ss_co ss;
     ss_no := ss_no ss; ss_fno := ss_fno ss;
     ss_has_mask := ss_has_mask ss; ss_mask := ss_mask ss;
     ss_color := ss_color ss;
     ss_has_mvert := ss_has_mvert ss; ss_pbvh_update := ss_pbvh_update ss;
     ss_neighbors := ss_neighbors ss; ss_boundary := ss_boundary ss;
     ss_orig_co := ss_orig_co ss;
     cache_bstrength := cache_bstrength ss;
     cache_surface_smooth_laplacian_disp := buf;
     cache_detail_directions := cache_detail_directions ss |}.

(** [if (vd.mvert) vd.mvert->flag |= ME_VERT_PBVH_UPDATE;] *)
Definition tag_pbvh_update (ss : SculptSession) (index : SculptIdx) : SculptSession :=
  if ss_has_mvert ss then
    {| ss_pbvh_type := ss_pbvh_type ss; ss_pmap := ss_pmap ss;
       ss_co := ss_co ss;
       ss_no := ss_no ss; ss_fno := ss_fno ss;
       ss_has_mask := ss_has_mask ss; ss_mask := ss_mask ss;
       ss_color := ss_color ss;
       ss_has_mvert := ss_has_mvert ss;
       ss_pbvh_update := store (ss_pbvh_update ss) index true;
       ss_neighbors := ss_neighbors ss; ss_boundary := ss_boundary ss;
       ss_orig_co := ss_orig_co ss;
       cache_bstrength := cache_bstrength ss;
       cache_surface_smooth_laplacian_disp := cache_surface_smooth_laplacian_disp ss;
       cache_detail_directions := cache_detail_directions ss |}
  else ss.

(** ** Averaging primitives *)

(** The loop of [SCULPT_neighbor_coords_average_interior]: the accumulator
    is [(avg, total, neighbor_count)]. *)
Fixpoint coords_average_interior_loop (ss : SculptSession) (is_boundary : bool)
    (nis : list SculptIdx) (acc : vec3 * Z * Z) : vec3 * Z * Z :=
  match nis with
  | [] => acc
  | ni :: rest =>
      let '(avg, total, neighbor_count) := acc in
      let neighbor_count := (neighbor_count + 1)%Z in
      let acc' :=
        if is_boundary then
          (* Boundary vertices use only other boundary vertices. *)
          if SCULPT_vertex_is_boundary ss ni then
            (add_v3_v3 avg (SCULPT_vertex_co_get ss ni), (total + 1)%Z, neighbor_count)
          else (avg, total, neighbor_count)
        else
          (* Interior vertices use all neighbors. *)
          (add_v3_v3 avg (SCULPT_vertex_co_get ss ni), (total + 1)%Z, neighbor_count)
      in coords_average_interior_loop ss is_boundary rest acc'
  end.

Definition SCULPT_neighbor_coords_average_interior (ss : SculptSession)
    (index : SculptIdx) : vec3 :=
  let is_boundary := SCULPT_vertex_is_boundary ss index in
  let '(avg, total, neighbor_count) :=
    coords_average_interior_loop ss is_boundary (ss_neighbors ss index)
      (zero_v3, 0%Z, 0%Z) in
  (* Do not modify corner vertices. *)
  if (neighbor_count <=? 2)%Z then copy_v3_v3 (SCULPT_vertex_co_get ss index)
  (* Avoid division by 0 when there are no neighbors. *)
  else if (total =? 0)%Z then copy_v3_v3 (SCULPT_vertex_co_get ss index)
  else mul_v3_v3fl avg (1 / int_to_float total).

(** The loop shared in shape by the three generic averages: accumulate a
    value per neighbour and count the neighbours. *)
Fixpoint neighbor_accumulate {A : Type} (add : A -> A -> A) (get : SculptIdx -> A)
    (nis : list SculptIdx) (acc : A * Z) : A * Z :=
  match nis with
  | [] => acc
  | ni :: rest =>
      neighbor_accumulate add get rest (add (fst acc) (get ni), (snd acc + 1)%Z)
  end.

Definition SCULPT_neighbor_coords_average (ss : SculptSession) (index : SculptIdx)
  : vec3 :=
  let '(avg, total) :=
    neighbor_accumulate add_v3_v3 (SCULPT_vertex_co_get ss)
      (ss_neighbors ss index) (zero_v3, 0%Z) in
  if (total >? 0)%Z then mul_v3_v3fl avg (1 / int_to_float total)
  else copy_v3_v3 (SCULPT_vertex_co_get ss index).

Definition SCULPT_neighbor_mask_average (ss : SculptSession) (index : SculptIdx)
  : float :=
  let '(avg, total) :=
    neighbor_accumulate Qplus (SCULPT_vertex_mask_get ss)
      (ss_neighbors ss index) (0, 0%Z) in
  if (total >? 0)%Z then avg / int_to_float total
  else SCULPT_vertex_mask_get ss index.

Definition SCULPT_neighbor_color_average (ss : SculptSession) (index : SculptIdx)
  : vec4 :=
  let '(avg, total) :=
    neighbor_accumulate add_v4_v4 (SCULPT_vertex_color_get ss)
      (ss_neighbors ss index) (zero_v4, 0%Z) in
  if (total >? 0)%Z then mul_v4_v4fl avg (1 / int_to_float total)
  else copy_v4_v4 (SCULPT_vertex_color_get ss index).

(** ** Directional (four-neighbour) average *)

(** [normalize_v3] divides by a square root, which the rational model does
    not have; it is taken as an operation supplied by the math library. *)
Class MathLib : Type := { normalize_v3 : vec3 -> vec3 }.

(** The fields of a [BMVert] read here; [bmv_addr] stands for the pointer,
    compared in [e->v1 == v]. *)
Record BMVert : Type := { bmv_addr : Z; bmv_co : vec3; bmv_no : vec3 }.

(** An edge with its two end points and the answer of
    [BM_edge_is_boundary(e)]. *)
Record BMEdge : Type := { bme_v1 : BMVert; bme_v2 : BMVert; bme_is_boundary : bool }.

Definition BM_edge_is_boundary (e : BMEdge) : bool := bme_is_boundary e.

Record TMVert : Type := { tmv_addr : Z; tmv_co : vec3; tmv_no : vec3 }.
Record TMEdge : Type := { tme_v1 : TMVert; tme_v2 : TMVert; tme_is_boundary : bool }.

Definition TM_edge_is_boundary (e : TMEdge) : bool := tme_is_boundary e.

(** [fac = dot(vec, direction); fac = fac * fac - 0.5f; fac *= fac;] *)
Definition orthogonality_fac (vec direction : vec3) : float :=
  let fac := dot_v3v3 vec direction in
  let fac := fac * fac - (1 # 2) in
  fac * fac.

(** The edge loop of [SCULPT_bmesh_four_neighbor_average] over the edges
    that [BM_ITER_ELEM (e, &eiter, v, BM_EDGES_OF_VERT)] yields.  [None] is
    the early [return] at a boundary edge; otherwise the final
    [(avg_co, tot_co)]. *)
Fixpoint bmesh_four_neighbor_loop {math : MathLib} (direction : vec3) (v : BMVert)
    (edges : list BMEdge) (acc : vec3 * float) : option (vec3 * float) :=
  match edges with
  | [] => Some acc
  | e :: rest =>
      if BM_edge_is_boundary e then None
      else
        let '(avg_co, tot_co) := acc in
        let v_other := if Z.eqb (bmv_addr (bme_v1 e)) (bmv_addr v)
                       then bme_v2 e else bme_v1 e in
        let vec := sub_v3_v3v3 (bmv_co v_other) (bmv_co v) in
        let vec := madd_v3_v3fl vec (bmv_no v) (- dot_v3v3 vec (bmv_no v)) in
        let vec := normalize_v3 vec in
        let fac := orthogonality_fac vec direction in
        bmesh_four_neighbor_loop direction v rest
          (madd_v3_v3fl avg_co (bmv_co v_other) fac, tot_co + fac)
  end.

(** The tail of both four-neighbour averages, after the edge loop. *)
Definition four_neighbor_finish (co no avg_co : vec3) (tot_co : float) : vec3 :=
  (* In case vert has no Edge s. *)
  if float_gt tot_co 0 then
    let avg := mul_v3_v3fl avg_co (1 / tot_co) in
    (* Preserve volume. *)
    let avg := sub_v3_v3 avg co in
    let vec := mul_v3_v3fl no (dot_v3v3 avg no) in
    let avg := sub_v3_v3 avg vec in
    add_v3_v3 avg co
  else zero_v3.

Definition SCULPT_bmesh_four_neighbor_average {math : MathLib} (direction : vec3)
    (v : BMVert) (edges_of_vert : list BMEdge) : vec3 :=
  match bmesh_four_neighbor_loop direction v edges_of_vert (zero_v3, 0) with
  | None => copy_v3_v3 (bmv_co v)
  | Some (avg_co, tot_co) => four_neighbor_finish (bmv_co v) (bmv_no v) avg_co tot_co
  end.

(** The edge loop of [SCULPT_trimesh_four_neighbor_average] over
    [v->edges.items[0 .. v->edges.length - 1]]. *)
Fixpoint trimesh_four_neighbor_loop {math : MathLib} (direction : vec3) (v : TMVert)
    (edges : list TMEdge) (acc : vec3 * float) : option (vec3 * float) :=
  match edges with
  | [] => Some acc
  | e :: rest =>
      if TM_edge_is_boundary e then None
      else
        let '(avg_co, tot_co) := acc in
        let v_other := if Z.eqb (tmv_addr (tme_v1 e)) (tmv_addr v)
                       then tme_v2 e else tme_v1 e in
        let vec := sub_v3_v3v3 (tmv_co v_other) (tmv_co v) in
        let vec := madd_v3_v3fl vec (tmv_no v) (- dot_v3v3 vec (tmv_no v)) in
        let vec := normalize_v3 vec in
        let fac := orthogonality_fac vec direction in
        trimesh_four_neighbor_loop direction v rest
          (madd_v3_v3fl avg_co (tmv_co v_other) fac, tot_co + fac)
  end.

Definition SCULPT_trimesh_four_neighbor_average {math : MathLib} (direction : vec3)
    (v : TMVert) (edges : list TMEdge) : vec3 :=
  match trimesh_four_neighbor_loop direction v edges (zero_v3, 0) with
  | None => copy_v3_v3 (tmv_co v)
  | Some (avg_co, tot_co) => four_neighbor_finish (tmv_co v) (tmv_no v) avg_co tot_co
  end.

(** ** Brush, tool settings and the services of [sculpt.c] *)

Record Brush : Type := {
  falloff_shape : Z;
  surface_smooth_shape_preservation : float;
  surface_smooth_current_vertex : float;
  surface_smooth_iterations : Z
}.

Record Sculpt : Type := { sd_flags : Z; sd_paint_brush : Brush }.

Definition BKE_paint_brush (sd : Sculpt) : Brush := sd_paint_brush sd.

(** A PBVH node, as the vertices that
    [BKE_pbvh_vertex_iter_begin(.., PBVH_ITER_UNIQUE)] visits. *)
Definition PBVHNode : Type := list SculptIdx.

(** Functions of [sculpt.c] called by the kernels, taken as given.
    - [SCULPT_brush_test_init_with_falloff_shape ss shape] is the test
      function it returns; applied to a position it answers [Some dist]
      (the value left in [test.dist]) when the position passes.
    - [SCULPT_brush_strength_factor] receives [test.dist] where the source
      passes [sqrtf(test.dist)]; the thread id is dropped.
    - [SCULPT_clip sd ss co val] is the position left in [co]. *)
Class SculptServices : Type := {
  SCULPT_brush_test_init_with_falloff_shape :
    SculptSession -> Z -> vec3 -> option float;
  SCULPT_brush_strength_factor :
    SculptSession -> Brush -> vec3 -> float -> vec3 -> vec3 -> float ->
    SculptIdx -> float;
  SCULPT_clip : Sculpt -> SculptSession -> vec3 -> vec3 -> vec3;
  SCULPT_vertex_random_access_ensure : SculptSession -> SculptSession;
  SCULPT_boundary_info_ensure : SculptSession -> SculptSession
}.

Record SculptThreadedTaskData : Type := {
  data_sd : Sculpt;
  data_brush : Brush;
  data_nodes : list PBVHNode;
  data_smooth_mask : bool;
  data_strength : float
}.

(** [BLI_task_parallel_range(start, stop, data, func, settings)]: [func] is
    called once for every [n] in [[start, stop)].  The node tasks touch
    disjoint vertices; they are run here in index order. *)
Definition BLI_task_parallel_range {S : Type} (start stop : Z)
    (func : Z -> S -> S) (s : S) : S :=
  fold_left (fun s n => func n s)
    (map (fun i => (start + Z.of_nat i)%Z) (seq 0 (Z.to_nat (stop - start)))) s.

(** ** The smoothing kernel and its orchestrator *)

(** The body of the vertex loop of [do_smooth_brush_task_cb_ex] (the
    variant compiled without [PROXY_ADVANCED]).  In mask mode the source
    dereferences [vd.mask] without a test. *)
Definition smooth_brush_vertex {services : SculptServices} (data : SculptThreadedTaskData)
    (bstrength : float) (sculpt_brush_test_sq_fn : vec3 -> option float)
    (ss : SculptSession) (vd_index : SculptIdx) : SculptSession :=
  let smooth_mask := data_smooth_mask data in
  let vd_co := ss_co ss vd_index in
  match sculpt_brush_test_sq_fn vd_co with
  | None => ss
  | Some test_dist =>
      let fade :=
        bstrength *
        SCULPT_brush_strength_factor ss (data_brush data) vd_co test_dist
          (ss_no ss vd_index) (ss_fno ss vd_index)
          (if smooth_mask then 0
           else if ss_has_mask ss then ss_mask ss vd_index else 0)
          vd_index in
      let ss' :=
        if smooth_mask then
          let val := SCULPT_neighbor_mask_average ss vd_index - ss_mask ss vd_index in
          let val := val * (fade * bstrength) in
          let vd_mask := ss_mask ss vd_index + val in
          set_mask ss vd_index (CLAMP vd_mask 0 1)
        else
          let avg := SCULPT_neighbor_coords_average_interior ss vd_index in
          let val := sub_v3_v3v3 avg vd_co in
          let val := madd_v3_v3v3fl vd_co val fade in
          set_co ss vd_index (SCULPT_clip (data_sd data) ss vd_co val)
      in
      tag_pbvh_update ss' vd_index
  end.

Definition do_smooth_brush_task_cb_ex {services : SculptServices}
    (data : SculptThreadedTaskData) (n : Z) (ss : SculptSession) : SculptSession :=
  let bstrength := CLAMP (data_strength data) 0 1 in
  let sculpt_brush_test_sq_fn :=
    SCULPT_brush_test_init_with_falloff_shape ss (falloff_shape (data_brush data)) in
  fold_left (smooth_brush_vertex data bstrength sculpt_brush_test_sq_fn)
    (nth (Z.to_nat n) (data_nodes data) []) ss.

Definition max_iterations : Z := 4.

(** [count = (int)(bstrength * max_iterations)], for the clamped strength. *)
Definition smooth_count (bstrength : float) : Z :=
  float_to_int (bstrength * int_to_float max_iterations).

(** [last = max_iterations * (bstrength - count * fract)] with
    [fract = 1.0f / max_iterations]. *)
Definition smooth_last (bstrength : float) : float :=
  let fract := 1 / int_to_float max_iterations in
  let count := smooth_count bstrength in
  int_to_float max_iterations * (bstrength - int_to_float count * fract).

(** The values of [iteration] in
    [for (iteration = 0; iteration <= count; iteration++)]. *)
Definition smooth_iterations (count : Z) : list Z :=
  map Z.of_nat (seq 0 (Z.to_nat (count + 1))).

(** [strength = (iteration != count) ? 1.0f : last] *)
Definition smooth_iteration_strength (count : Z) (last : float) (iteration : Z)
  : float :=
  if negb (Z.eqb iteration count) then 1 else last.

(** What [SCULPT_smooth] leaves behind: the session, and the message of the
    assertion it reported, if any. *)
Record SmoothResult : Type := {
  smooth_assert : option string;
  smooth_session : SculptSession
}.

Definition SCULPT_smooth {services : SculptServices} (sd : Sculpt) (ss : SculptSession)
    (nodes : list PBVHNode) (totnode : Z) (bstrength : float) (smooth_mask : bool)
  : SmoothResult :=
  let brush := BKE_paint_brush sd in
  let type := ss_pbvh_type ss in
  let bstrength := CLAMP bstrength 0 1 in
  let count := smooth_count bstrength in
  let last := smooth_last bstrength in
  if PBVHType_eqb type PBVH_FACES && negb (ss_pmap ss) then
    {| smooth_assert := Some "sculpt smooth: pmap missing"%string;
       smooth_session := ss |}
  else
    let ss :=
      if negb (PBVHType_eqb type PBVH_TRIMESH)
      then SCULPT_vertex_random_access_ensure ss else ss in
    let ss := SCULPT_boundary_info_ensure ss in
    {| smooth_assert := None;
       smooth_session :=
         fold_left
           (fun ss iteration =>
              let strength := smooth_iteration_strength count last iteration in
              let data :=
                {| data_sd := sd; data_brush := brush; data_nodes := nodes;
                   data_smooth_mask := smooth_mask; data_strength := strength |} in
              BLI_task_parallel_range 0 totnode (do_smooth_brush_task_cb_ex data) ss)
           (smooth_iterations count) ss |}.


(** ** Surface (HC) smoothing *)

(** Returns [disp] and the updated [laplacian_disp] buffer. *)
Definition SCULPT_surface_smooth_laplacian_step (ss : SculptSession) (co : vec3)
    (laplacian_disp : SculptIdx -> vec3) (v_index : SculptIdx) (origco : vec3)
    (alpha : float) : vec3 * (SculptIdx -> vec3) :=
  let laplacian_smooth_co := SCULPT_neighbor_coords_average ss v_index in
  let weigthed_o := mul_v3_v3fl origco alpha in
  let weigthed_q := mul_v3_v3fl co (1 - alpha) in
  let d := add_v3_v3v3 weigthed_o weigthed_q in
  let laplacian_disp :=
    store laplacian_disp v_index (sub_v3_v3v3 laplacian_smooth_co d) in
  let disp := sub_v3_v3v3 laplacian_smooth_co co in
  (disp, laplacian_disp).

(** Returns the new value of [co]. *)
Definition SCULPT_surface_smooth_displace_step (ss : SculptSession) (co : vec3)
    (laplacian_disp : SculptIdx -> vec3) (v_index : SculptIdx)
    (beta fade : float) : vec3 :=
  let '(b_avg, total) :=
    neighbor_accumulate add_v3_v3 laplacian_disp (ss_neighbors ss v_index)
      (zero_v3, 0%Z) in
  if (total >? 0)%Z then
    let b_current_vertex := mul_v3_v3fl b_avg ((1 - beta) / int_to_float total) in
    let b_current_vertex :=
      madd_v3_v3fl b_current_vertex (laplacian_disp v_index) beta in
    let b_current_vertex := mul_v3_fl b_current_vertex (clamp_f fade 0 1) in
    sub_v3_v3 co b_current_vertex
  else co.

(** The body of the vertex loop of
    [SCULPT_do_surface_smooth_brush_laplacian_task_cb_ex]; [orig_data.co] is
    the original position that [SCULPT_orig_vert_data_update] looks up. *)
Definition surface_smooth_laplacian_vertex {services : SculptServices} (brush : Brush)
    (bstrength alpha : float) (sculpt_brush_test_sq_fn : vec3 -> option float)
    (ss : SculptSession) (vd_index : SculptIdx) : SculptSession :=
  let orig_data_co := ss_orig_co ss vd_index in
  let vd_co := ss_co ss vd_index in
  match sculpt_brush_test_sq_fn vd_co with
  | None => ss
  | Some test_dist =>
      let fade :=
        bstrength *
        SCULPT_brush_strength_factor ss brush vd_co test_dist
          (ss_no ss vd_index) (ss_fno ss vd_index)
          (if ss_has_mask ss then ss_mask ss vd_index else 0) vd_index in
      let '(disp, laplacian_disp) :=
        SCULPT_surface_smooth_laplacian_step ss vd_co
          (cache_surface_smooth_laplacian_disp ss) vd_index orig_data_co alpha in
      let ss := set_laplacian_disp ss laplacian_disp in
      let ss := set_co ss vd_index (madd_v3_v3fl vd_co disp (clamp_f fade 0 1)) in
      tag_pbvh_update ss vd_index
  end.

Definition SCULPT_do_surface_smooth_brush_laplacian_task_cb_ex {services : SculptServices}
    (data : SculptThreadedTaskData) (n : Z) (ss : SculptSession) : SculptSession :=
  let brush := data_brush data in
  let bstrength := cache_bstrength ss in
  let alpha := surface_smooth_shape_preservation brush in
  let sculpt_brush_test_sq_fn :=
    SCULPT_brush_test_init_with_falloff_shape ss (falloff_shape brush) in
  fold_left (surface_smooth_laplacian_vertex brush bstrength alpha sculpt_brush_test_sq_fn)
    (nth (Z.to_nat n) (data_nodes data) []) ss.

(** The body of the vertex loop of
    [SCULPT_do_surface_smooth_brush_displace_task_cb_ex]. *)
Definition surface_smooth_displace_vertex {services : SculptServices} (brush : Brush)
    (bstrength beta : float) (sculpt_brush_test_sq_fn : vec3 -> option float)
    (ss : SculptSession) (vd_index : SculptIdx) : SculptSession :=
  let vd_co := ss_co ss vd_index in
  match sculpt_brush_test_sq_fn vd_co with
  | None => ss
  | Some test_dist =>
      let fade :=
        bstrength *
        SCULPT_brush_strength_factor ss brush vd_co test_dist
          (ss_no ss vd_index) (ss_fno ss vd_index)
          (if ss_has_mask ss then ss_mask ss vd_index else 0) vd_index in
      set_co ss vd_index
        (SCULPT_surface_smooth_displace_step ss vd_co
           (cache_surface_smooth_laplacian_disp ss) vd_index beta fade)
  end.

Definition SCULPT_do_surface_smooth_brush_displace_task_cb_ex {services : SculptServices}
    (data : SculptThreadedTaskData) (n : Z) (ss : SculptSession) : SculptSession :=
  let brush := data_brush data in
  let bstrength := cache_bstrength ss in
  let beta := surface_smooth_current_vertex brush in
  let sculpt_brush_test_sq_fn :=
    SCULPT_brush_test_init_with_falloff_shape ss (falloff_shape brush) in
  fold_left (surface_smooth_displace_vertex brush bstrength beta sculpt_brush_test_sq_fn)
    (nth (Z.to_nat n) (data_nodes data) []) ss.

(** ** The rest of [sculpt_smooth.c]: detail enhancement and the brushes *)

(** Queries on the stroke cache and the session answered by [sculpt.c]. *)
Class StrokeQueries : Type := {
  SCULPT_stroke_is_first_brush_step : SculptSession -> bool;
  SCULPT_vertex_count_get : SculptSession -> Z
}.

Definition set_detail_directions (ss : SculptSession) (buf : SculptIdx -> vec3)
  : SculptSession :=
  {| ss_pbvh_type := ss_pbvh_type ss; ss_pmap := ss_pmap ss;
     ss_co := ss_co ss;
     ss_no := ss_no ss; ss_fno := ss_fno ss;
     ss_has_mask := ss_has_mask ss; ss_mask := ss_mask ss;
     ss_color := ss_color ss;
     ss_has_mvert := ss_has_mvert ss; ss_pbvh_update := ss_pbvh_update ss;
     ss_neighbors := ss_neighbors ss; ss_boundary := ss_boundary ss;
     ss_orig_co := ss_orig_co ss;
     cache_bstrength := cache_bstrength ss;
     cache_surface_smooth_laplacian_disp := cache_surface_smooth_laplacian_disp ss;
     cache_detail_directions := buf |}.

(** The values [start, start + 1, ..., stop - 1] of a counting [for] loop. *)
Definition int_range (start stop : Z) : list Z :=
  map (fun i => (start + Z.of_nat i)%Z) (seq 0 (Z.to_nat (stop - start))).

(** The body of the vertex loop of [do_enhance_details_brush_task_cb_ex]. *)
Definition enhance_details_vertex {services : SculptServices}
    (data : SculptThreadedTaskData) (bstrength : float)
    (sculpt_brush_test_sq_fn : vec3 -> option float)
    (ss : SculptSession) (vd_index : SculptIdx) : SculptSession :=
  let vd_co := ss_co ss vd_index in
  match sculpt_brush_test_sq_fn vd_co with
  | None => ss
  | Some test_dist =>
      let fade :=
        bstrength *
        SCULPT_brush_strength_factor ss (data_brush data) vd_co test_dist
          (ss_no ss vd_index) (ss_fno ss vd_index)
          (if ss_has_mask ss then ss_mask ss vd_index else 0) vd_index in
      let disp := madd_v3_v3v3fl vd_co (cache_detail_directions ss vd_index) fade in
      let ss' := set_co ss vd_index (SCULPT_clip (data_sd data) ss vd_co disp) in
      tag_pbvh_update ss' vd_index
  end.

Definition do_enhance_details_brush_task_cb_ex {services : SculptServices}
    (data : SculptThreadedTaskData) (n : Z) (ss : SculptSession) : SculptSession :=
  let bstrength := CLAMP (cache_bstrength ss) (- (1)) 1 in
  let sculpt_brush_test_sq_fn :=
    SCULPT_brush_test_init_with_falloff_shape ss (falloff_shape (data_brush data)) in
  fold_left (enhance_details_vertex data bstrength sculpt_brush_test_sq_fn)
    (nth (Z.to_nat n) (data_nodes data) []) ss.

(** The loop of [SCULPT_enhance_details_brush] that fills
    [detail_directions[0 .. totvert - 1]]; the freshly allocated array
    starts with the arbitrary contents [buf]. *)
Definition compute_detail_directions (ss : SculptSession) (totvert : Z)
    (buf : SculptIdx -> vec3) : SculptIdx -> vec3 :=
  fold_left
    (fun detail_directions i =>
       let avg := SCULPT_neighbor_coords_average ss i in
       store detail_directions i (sub_v3_v3v3 avg (SCULPT_vertex_co_get ss i)))
    (int_range 0 totvert) buf.

(** The task data of the brushes that leave [smooth_mask] and [strength]
    out of the initialiser: both are zero. *)
Definition brush_task_data (sd : Sculpt) (brush : Brush) (nodes : list PBVHNode)
  : SculptThreadedTaskData :=
  {| data_sd := sd; data_brush := brush; data_nodes := nodes;
     data_smooth_mask := false; data_strength := 0 |}.

Definition SCULPT_enhance_details_brush {services : SculptServices}
    {stroke : StrokeQueries} (sd : Sculpt) (ss : SculptSession)
    (nodes : list PBVHNode) (totnode : Z) : SculptSession :=
  let brush := BKE_paint_brush sd in
  let ss := SCULPT_vertex_random_access_ensure ss in
  let ss := SCULPT_boundary_info_ensure ss in
  let ss :=
    if SCULPT_stroke_is_first_brush_step ss then
      let totvert := SCULPT_vertex_count_get ss in
      set_detail_directions ss
        (compute_detail_directions ss totvert (cache_detail_directions ss))
    else ss in
  BLI_task_parallel_range 0 totnode
    (do_enhance_details_brush_task_cb_ex (brush_task_data sd brush nodes)) ss.

Definition SCULPT_do_smooth_brush {services : SculptServices}
    {stroke : StrokeQueries} (sd : Sculpt) (ss : SculptSession)
    (nodes : list PBVHNode) (totnode : Z) : SmoothResult :=
  if Qle_bool (cache_bstrength ss) 0 then
    (* Invert mode, intensify details. *)
    {| smooth_assert := None;
       smooth_session := SCULPT_enhance_details_brush sd ss nodes totnode |}
  else
    (* Regular mode, smooth. *)
    SCULPT_smooth sd ss nodes totnode (cache_bstrength ss) false.

(** [SCULPT_do_surface_smooth_brush]; the buffer that [MEM_callocN] returns
    on the first step of a stroke is all zero.  The [BLI_assert] before
    the allocation tests the buffer pointer, which is not modelled. *)
Definition SCULPT_do_surface_smooth_brush {services : SculptServices}
    {stroke : StrokeQueries} (sd : Sculpt) (ss : SculptSession)
    (nodes : list PBVHNode) (totnode : Z) : SculptSession :=
  let brush := BKE_paint_brush sd in
  let ss :=
    if SCULPT_stroke_is_first_brush_step ss
    then set_laplacian_disp ss (fun _ => zero_v3) else ss in
  let data := brush_task_data sd brush nodes in
  fold_left
    (fun ss (_ : Z) =>
       let ss :=
         BLI_task_parallel_range 0 totnode
           (SCULPT_do_surface_smooth_brush_laplacian_task_cb_ex data) ss in
       BLI_task_parallel_range 0 totnode
         (SCULPT_do_surface_smooth_brush_displace_task_cb_ex data) ss)
    (int_range 0 (surface_smooth_iterations brush)) ss.

(** ** [gpencil_armature.c]: the bone looper and its callbacks *)

(** The fields of a [Bone] read by the callbacks. *)
Record BoneData : Type := {
  bone_name : string;
  bone_flag : Z;
  bone_layer : Z;
  bone_segments : Z
}.

(** A bone with what hangs on its two links: [bone->childbase.first] and
    [bone->next].  [NullBone] is the [NULL] pointer. *)
Inductive Bone : Type :=
| NullBone
| MkBone (b : BoneData) (childbase_first : Bone) (next : Bone).

(** The callback runs in a state [S] (the object and the looper data it
    writes) and returns its [int]. *)
Fixpoint gpencil_bone_looper {S : Type} (bone : Bone)
    (bone_func : S -> BoneData -> Z * S) (st : S) : Z * S :=
  match bone with
  | NullBone => (0%Z, st)
  | MkBone b childbase_first next =>
      (* only do bone_func if the bone is non null *)
      let '(c1, st) := bone_func st b in
      (* try to execute bone_func for the first child *)
      let '(c2, st) := gpencil_bone_looper childbase_first bone_func st in
      (* try to execute bone_func for the next bone at this depth *)
      let '(c3, st) := gpencil_bone_looper next bone_func st in
      ((0 + c1 + c2 + c3)%Z, st)
  end.

(** A deform group, and the armature object with what the callbacks read
    of it: whether [armob->pose] is set and [arm->layer]. *)
Record bDeformGroup : Type := { dg_name : string; dg_flag : Z }.

Record ArmatureObject : Type := { armob_has_pose : bool; arm_layer : Z }.

(** Constants of the DNA headers and functions of the kernel used by the
    callbacks, taken as given.  [BKE_pose_channel_find_name name] answers
    whether the pose of the armature has a channel of that name;
    [defgroup_find_name] and [BKE_object_defgroup_add_name] act on the
    object [GpObject] that receives the vertex groups. *)
Class ArmatureLib : Type := {
  GpObject : Type;
  BONE_HIDDEN_P : Z;
  BONE_NO_DEFORM : Z;
  DG_LOCK_WEIGHT : Z;
  BKE_pose_channel_find_name : string -> bool;
  defgroup_find_name : GpObject -> string -> option bDeformGroup;
  BKE_object_defgroup_add_name : GpObject -> string -> bDeformGroup * GpObject
}.

(** [struct { Object *armob; void *list; int heat; }]: [looper_list] is
    [None] for a [NULL] list, else the entries written so far through the
    advancing pointer. *)
Record LooperData (A : Type) : Type := {
  looper_armob : ArmatureObject;
  looper_list : option (list A);
  looper_heat : bool
}.

Arguments looper_armob {A} _.
Arguments looper_list {A} _.
Arguments looper_heat {A} _.

(** [**hbone = x; ++*hbone;] repeated [segments] times, when the list is
    not [NULL]. *)
Definition looper_write {A : Type} (data : LooperData A) (x : A) (segments : Z)
  : LooperData A :=
  match looper_list data with
  | None => data
  | Some l =>
      {| looper_armob := looper_armob data;
         looper_list := Some (l ++ repeat x (Z.to_nat segments));
         looper_heat := looper_heat data |}
  end.

(** [segments] as both skinnable callbacks compute it. *)
Definition skinnable_segments {lib : ArmatureLib} {A : Type} (data : LooperData A)
    (bone : BoneData) : Z :=
  if looper_heat data && armob_has_pose (looper_armob data)
     && BKE_pose_channel_find_name (bone_name bone)
  then bone_segments bone else 1%Z.

Definition flag_set (flag bit : Z) : bool := negb (Z.eqb (Z.land flag bit) 0).

Definition bone_skinnable_cb {lib : ArmatureLib} (data : LooperData BoneData)
    (bone : BoneData) : Z * LooperData BoneData :=
  if negb (flag_set (bone_flag bone) BONE_HIDDEN_P) then
    if negb (flag_set (bone_flag bone) BONE_NO_DEFORM) then
      let segments := skinnable_segments data bone in
      (segments, looper_write data bone segments)
    else (0%Z, data)
  else (0%Z, data).

Definition dgroup_skinnable_cb {lib : ArmatureLib}
    (st : GpObject * LooperData (option bDeformGroup)) (bone : BoneData)
  : Z * (GpObject * LooperData (option bDeformGroup)) :=
  let '(ob, data) := st in
  if negb (flag_set (bone_flag bone) BONE_HIDDEN_P) then
    if negb (flag_set (bone_flag bone) BONE_NO_DEFORM) then
      let segments := skinnable_segments data bone in
      let '(defgroup, ob) :=
        if flag_set (arm_layer (looper_armob data)) (bone_layer bone) then
          match defgroup_find_name ob (bone_name bone) with
          | None =>
              let '(g, ob) := BKE_object_defgroup_add_name ob (bone_name bone) in
              (Some g, ob)
          | Some g =>
              (* In case vgroup already exists and is locked, do not modify it. *)
              if flag_set (dg_flag g) DG_LOCK_WEIGHT then (None, ob) else (Some g, ob)
          end
        else (None, ob) in
      (segments, (ob, looper_write data defgroup segments))
    else (0%Z, st)
  else (0%Z, st).

(** [vgroup_add_unique_bone_cb]: the state is the object. *)
Definition vgroup_add_unique_bone_cb {lib : ArmatureLib} (ob : GpObject)
    (bone : BoneData) : Z * GpObject :=
  if negb (flag_set (bone_flag bone) BONE_NO_DEFORM) then
    match defgroup_find_name ob (bone_name bone) with
    | None => (1%Z, snd (BKE_object_defgroup_add_name ob (bone_name bone)))
    | Some _ => (0%Z, ob)
    end
  else (0%Z, ob).

(** Every bone of the forest satisfies [P]. *)
Fixpoint all_bones (P : BoneData -> Prop) (bone : Bone) : Prop :=
  match bone with
  | NullBone => True
  | MkBone b childbase_first next =>
      P b /\ all_bones P childbase_first /\ all_bones P next
  end.

(** ** Trimesh records read as bmesh records *)

Definition TMVert_of_BMVert (v : BMVert) : TMVert :=
  {| tmv_addr := bmv_addr v; tmv_co := bmv_co v; tmv_no := bmv_no v |}.

Definition TMEdge_of_BMEdge (e : BMEdge) : TMEdge :=
  {| tme_v1 := TMVert_of_BMVert (bme_v1 e);
     tme_v2 := TMVert_of_BMVert (bme_v2 e);
     tme_is_boundary := bme_is_boundary e |}.

(** ** Notions used to state the properties *)

(** The neighbours that contribute to the boundary-aware average: all of
    them for an interior vertex, the boundary ones for a boundary vertex. *)
Definition interior_contributors (ss : SculptSession) (index : SculptIdx)
  : list SculptIdx :=
  if SCULPT_vertex_is_boundary ss index
  then filter (SCULPT_vertex_is_boundary ss) (ss_neighbors ss index)
  else ss_neighbors ss index.

(** Sum of a list of floats and of a list of vectors. *)
Definition fsum (l : list float) : float := fold_right Qplus 0 l.
Definition vsum (l : list vec3) : vec3 := fold_right add_v3_v3v3 zero_v3 l.

(** Scaling a vector, and the difference of two vectors. *)
Definition vscale (k : float) (a : vec3) : vec3 :=
  V3 (k * v3_x a) (k * v3_y a) (k * v3_z a).
Definition vminus (a b : vec3) : vec3 :=
  V3 (v3_x a - v3_x b) (v3_y a - v3_y b) (v3_z a - v3_z b).
Definition vplus (a b : vec3) : vec3 :=
  V3 (v3_x a + v3_x b) (v3_y a + v3_y b) (v3_z a + v3_z b).

(** The mask invariant: every vertex mask lies in [[0, 1]]. *)
Definition mask_in_range (ss : SculptSession) : Prop :=
  forall v : SculptIdx, 0 <= ss_mask ss v <= 1.

(** Two sessions hold the same positions and the same masks. *)
Definition same_mesh (a b : SculptSession) : Prop :=
  forall v : SculptIdx, ss_co a v =v= ss_co b v /\ ss_mask a v == ss_mask b v.

(** What no kernel touches: topology, boundary flags, original positions,
    the PBVH type with its face map, and the stroke strength. *)
Definition same_topology (a b : SculptSession) : Prop :=
  ss_neighbors a = ss_neighbors b /\
  ss_boundary a = ss_boundary b /\
  ss_orig_co a = ss_orig_co b /\
  ss_pbvh_type a = ss_pbvh_type b /\
  ss_pmap a = ss_pmap b /\
  cache_bstrength a = cache_bstrength b.

(** The vertex [w] holds the same position, mask, update tag and
    Laplacian displacement in both sessions. *)
Definition same_at (a b : SculptSession) (w : SculptIdx) : Prop :=
  ss_co a w = ss_co b w /\
  ss_mask a w = ss_mask b w /\
  ss_pbvh_update a w = ss_pbvh_update b w /\
  cache_surface_smooth_laplacian_disp a w = cache_surface_smooth_laplacian_disp b w.

(** The bones of a forest in the order the looper meets them: a bone, the
    bones below it, then its next siblings. *)
Fixpoint bone_preorder (bone : Bone) : list BoneData :=
  match bone with
  | NullBone => []
  | MkBone b childbase_first next =>
      b :: bone_preorder childbase_first ++ bone_preorder next
  end.

(** Calling the callback on each bone of a list in turn, adding up what it
    returns. *)
Definition call_in_turn {S : Type} (bone_func : S -> BoneData -> Z * S)
    (bones : list BoneData) (start : Z * S) : Z * S :=
  fold_left (fun acc b => let '(c, st) := bone_func (snd acc) b in
                          ((fst acc + c)%Z, st)) bones start.

(** The first session holds the positions of the second, and each of its
    masks is the mask of the second or that mask clamped to [[0, 1]]. *)
Definition clamped_mesh (a b : SculptSession) : Prop :=
  forall v : SculptIdx,
    ss_co a v =v= ss_co b v /\
    (ss_mask a v == ss_mask b v \/ ss_mask a v == CLAMP (ss_mask b v) 0 1).

(** ** Concrete inputs *)

(** A stand-in for the math library where normalisation plays no part. *)
Definition plain_math : MathLib := {| normalize_v3 := fun v => v |}.

(** Services of a brush that covers every vertex at full strength, with
    neither axis lock nor mirror clipping. *)
Definition full_brush_services : SculptServices :=
  {| SCULPT_brush_test_init_with_falloff_shape := fun _ _ _ => Some 0;
     SCULPT_brush_strength_factor := fun _ _ _ _ _ _ _ _ => 1;
     SCULPT_clip := fun _ _ _ val => val;
     SCULPT_vertex_random_access_ensure := fun ss => ss;
     SCULPT_boundary_info_ensure := fun ss => ss |}.

Definition demo_brush : Brush :=
  {| falloff_shape := 0; surface_smooth_shape_preservation := 1;
     surface_smooth_current_vertex := 1 # 2; surface_smooth_iterations := 1 |}.

Definition demo_sculpt : Sculpt := {| sd_flags := 0; sd_paint_brush := demo_brush |}.

(** A fan: vertex 0 at the origin with the neighbours 1, 2, 3 on the three
    axes; vertex 4 is isolated, vertex 5 hangs on vertex 1 alone.  Vertex 0
    is a boundary vertex, no other vertex is. *)
Definition demo_session : SculptSession :=
  {| ss_pbvh_type := PBVH_BMESH;
     ss_pmap := false;
     ss_co := fun v =>
       if (v =? 1)%Z then V3 3 0 0
       else if (v =? 2)%Z then V3 0 3 0
       else if (v =? 3)%Z then V3 0 0 3
       else if (v =? 4)%Z then V3 1 2 3
       else if (v =? 5)%Z then V3 5 5 5
       else V3 0 0 0;
     ss_no := fun _ => V3 0 0 1;
     ss_fno := fun _ => V3 0 0 1;
     ss_has_mask := true;
     ss_mask := fun v => if (v =? 0)%Z then 1 else if (v =? 4)%Z then 1 # 2 else 0;
     ss_color := fun v => if (v =? 4)%Z then V4 (1 # 2) (1 # 4) 1 1 else V4 0 0 0 1;
     ss_has_mvert := false;
     ss_pbvh_update := fun _ => false;
     ss_neighbors := fun v =>
       if (v =? 0)%Z then [1; 2; 3]%Z
       else if (v =? 1)%Z then [0; 5]%Z
       else if (v =? 2)%Z then [0]%Z
       else if (v =? 3)%Z then [0]%Z
       else if (v =? 5)%Z then [1]%Z
       else [];
     ss_boundary := fun v => (v =? 0)%Z;
     ss_orig_co := fun v => if (v =? 0)%Z then V3 0 0 0 else V3 9 9 9;
     cache_bstrength := 1;
     cache_surface_smooth_laplacian_disp := fun v =>
       if (v =? 0)%Z then V3 1 1 1
       else if (v =? 1)%Z then V3 2 0 0
       else if (v =? 2)%Z then V3 0 4 0
       else if (v =? 3)%Z then V3 0 0 6
       else V3 0 0 0;
     cache_detail_directions := fun _ => V3 0 0 0 |}.

(** The same mesh as a face-based mesh whose [pmap] is missing. *)
Definition demo_faces_session : SculptSession :=
  {| ss_pbvh_type := PBVH_FACES;
     ss_pmap := false;
     ss_co := ss_co demo_session;
     ss_no := ss_no demo_session; ss_fno := ss_fno demo_session;
     ss_has_mask := true; ss_mask := ss_mask demo_session;
     ss_color := ss_color demo_session;
     ss_has_mvert := true; ss_pbvh_update := fun _ => false;
     ss_neighbors := ss_neighbors demo_session;
     ss_boundary := ss_boundary demo_session;
     ss_orig_co := ss_orig_co demo_session;
     cache_bstrength := 1;
     cache_surface_smooth_laplacian_disp :=
       cache_surface_smooth_laplacian_disp demo_session;
     cache_detail_directions := cache_detail_directions demo_session |}.

Definition demo_nodes : list PBVHNode := [[0; 1; 2]%Z; [3; 4; 5]%Z].

Definition demo_bmvert : BMVert :=
  {| bmv_addr := 100; bmv_co := V3 1 2 3; bmv_no := V3 0 0 1 |}.
Definition demo_bmvert_other : BMVert :=
  {| bmv_addr := 101; bmv_co := V3 2 2 3; bmv_no := V3 0 0 1 |}.
Definition demo_bmvert_far : BMVert :=
  {| bmv_addr := 102; bmv_co := V3 1 4 3; bmv_no := V3 0 0 1 |}.

Definition demo_bmedges : list BMEdge :=
  [ {| bme_v1 := demo_bmvert; bme_v2 := demo_bmvert_other; bme_is_boundary := false |};
    {| bme_v1 := demo_bmvert_far; bme_v2 := demo_bmvert; bme_is_boundary := true |} ].

Definition demo_tmvert : TMVert :=
  {| tmv_addr := 200; tmv_co := V3 1 2 3; tmv_no := V3 0 0 1 |}.
Definition demo_tmvert_other : TMVert :=
  {| tmv_addr := 201; tmv_co := V3 2 2 3; tmv_no := V3 0 0 1 |}.

Definition demo_tmedges : list TMEdge :=
  [ {| tme_v1 := demo_tmvert; tme_v2 := demo_tmvert_other; tme_is_boundary := false |};
    {| tme_v1 := demo_tmvert_other; tme_v2 := demo_tmvert; tme_is_boundary := true |} ].

Definition demo_direction : vec3 := V3 1 0 0.

(** A node list with the single vertex 0, and the task data of a surface
    smoothing pass over it with shape preservation 1. *)
Definition demo_single_node : list PBVHNode := [[0%Z]].

Definition demo_surface_data : SculptThreadedTaskData :=
  {| data_sd := demo_sculpt; data_brush := demo_brush;
     data_nodes := demo_single_node; data_smooth_mask := false;
     data_strength := 1 |}.

(** Services of a brush whose strength factor is 3 everywhere: without the
    clamp a mask update overshoots. *)
Definition strong_brush_services : SculptServices :=
  {| SCULPT_brush_test_init_with_falloff_shape := fun _ _ _ => Some 0;
     SCULPT_brush_strength_factor := fun _ _ _ _ _ _ _ _ => 3;
     SCULPT_clip := fun _ _ _ val => val;
     SCULPT_vertex_random_access_ensure := fun ss => ss;
     SCULPT_boundary_info_ensure := fun ss => ss |}.

(** Task data of a mask-smoothing iteration at full strength. *)
Definition demo_mask_data : SculptThreadedTaskData :=
  {| data_sd := demo_sculpt; data_brush := demo_brush;
     data_nodes := demo_nodes; data_smooth_mask := true;
     data_strength := 1 |}.

(** The demo mesh with no vertex on the boundary. *)
Definition demo_interior_session : SculptSession :=
  {| ss_pbvh_type := PBVH_BMESH;
     ss_pmap := false;
     ss_co := ss_co demo_session;
     ss_no := ss_no demo_session; ss_fno := ss_fno demo_session;
     ss_has_mask := true; ss_mask := ss_mask demo_session;
     ss_color := ss_color demo_session;
     ss_has_mvert := false; ss_pbvh_update := fun _ => false;
     ss_neighbors := ss_neighbors demo_session;
     ss_boundary := fun _ => false;
     ss_orig_co := ss_orig_co demo_session;
     cache_bstrength := - (1 # 2);
     cache_surface_smooth_laplacian_disp :=
       cache_surface_smooth_laplacian_disp demo_session;
     cache_detail_directions := fun v =>
       sub_v3_v3v3 (SCULPT_neighbor_coords_average demo_session v)
         (ss_co demo_session v) |}.

(** An edge fan around [demo_bmvert] without boundary edge. *)
Definition demo_bmedges_interior : list BMEdge :=
  [ {| bme_v1 := demo_bmvert; bme_v2 := demo_bmvert_other; bme_is_boundary := false |};
    {| bme_v1 := demo_bmvert_far; bme_v2 := demo_bmvert; bme_is_boundary := false |} ].

(** A stroke at its first step over the six vertices of the demo mesh. *)
Definition first_step_queries : StrokeQueries :=
  {| SCULPT_stroke_is_first_brush_step := fun _ => true;
     SCULPT_vertex_count_get := fun _ => 6%Z |}.

(** Task data of a position-mode iteration at full strength over the two
    demo nodes. *)
Definition demo_surface_data_nodes : SculptThreadedTaskData :=
  {| data_sd := demo_sculpt; data_brush := demo_brush;
     data_nodes := demo_nodes; data_smooth_mask := false;
     data_strength := 1 |}.

(** Tool settings whose brush runs zero surface smoothing iterations. *)
Definition demo_idle_sculpt : Sculpt :=
  {| sd_flags := 0;
     sd_paint_brush :=
       {| falloff_shape := 0; surface_smooth_shape_preservation := 1 # 2;
          surface_smooth_current_vertex := 1 # 2; surface_smooth_iterations := 0 |} |}.

(** Constants and lookups for the armature demo: the pose has a channel
    for the bone named "arm" only; the object receiving the groups is the
    list of its deform groups. *)
Definition demo_armature_lib : ArmatureLib :=
  {| GpObject := list bDeformGroup;
     BONE_HIDDEN_P := 64;
     BONE_NO_DEFORM := 4096;
     DG_LOCK_WEIGHT := 1;
     BKE_pose_channel_find_name := fun name => String.eqb name "arm";
     defgroup_find_name := fun ob name =>
       find (fun g => String.eqb (dg_name g) name) ob;
     BKE_object_defgroup_add_name := fun ob name =>
       ({| dg_name := name; dg_flag := 0 |},
        ob ++ [{| dg_name := name; dg_flag := 0 |}]) |}.

Definition demo_armob : ArmatureObject := {| armob_has_pose := true; arm_layer := 1 |}.

(** A root "arm" with three segments, its child "hand", a hidden sibling
    "ghost" and a non-deforming sibling "ctrl". *)
Definition demo_bones : Bone :=
  MkBone {| bone_name := "arm"; bone_flag := 0; bone_layer := 1; bone_segments := 3 |}
    (MkBone {| bone_name := "hand"; bone_flag := 0; bone_layer := 1; bone_segments := 1 |}
       NullBone NullBone)
    (MkBone {| bone_name := "ghost"; bone_flag := 64; bone_layer := 1; bone_segments := 1 |}
       NullBone
       (MkBone {| bone_name := "ctrl"; bone_flag := 4096; bone_layer := 1;
                  bone_segments := 1 |}
          NullBone NullBone)).



(** * Properties *)

(** Componentwise equality of two vector expressions by ring
    normalisation. *)
Ltac solve_veq := unfold veq; cbn; repeat split; ring.

(** ** Averaging primitives *)

Section AveragingLoops.

Variable ss : SculptSession.

(** The interior loop counts every neighbour in [neighbor_count] and the
    contributing ones in [total]. *)
Lemma coords_average_interior_loop_counts (b : bool) (nis : list SculptIdx) :
  forall (avg : vec3) (total neighbor_count : Z),
    let r := coords_average_interior_loop ss b nis (avg, total, neighbor_count) in
    snd r = (neighbor_count + Z.of_nat (List.length nis))%Z /\
    snd (fst r) =
      (total + Z.of_nat (List.length (if b then filter (SCULPT_vertex_is_boundary ss) nis
                                 else nis)))%Z.
Proof.
  induction nis as [| ni rest IH]; intros avg total neighbor_count.
  - destruct b; simpl; split; lia.
  - cbn [coords_average_interior_loop].
    destruct b.
    + destruct (SCULPT_vertex_is_boundary ss ni) eqn:Hb.
      * specialize (IH (add_v3_v3 avg (SCULPT_vertex_co_get ss ni))
                       (total + 1)%Z (neighbor_count + 1)%Z).
        cbn zeta in IH. destruct IH as [IH1 IH2].
        cbn [filter]. rewrite Hb. cbn [List.length]. split; [rewrite IH1 | rewrite IH2]; lia.
      * specialize (IH avg total (neighbor_count + 1)%Z).
        cbn zeta in IH. destruct IH as [IH1 IH2].
        cbn [filter]. rewrite Hb. cbn [List.length]. split; [rewrite IH1 | rewrite IH2]; lia.
    + specialize (IH (add_v3_v3 avg (SCULPT_vertex_co_get ss ni))
                     (total + 1)%Z (neighbor_count + 1)%Z).
      cbn zeta in IH. destruct IH as [IH1 IH2].
      cbn [List.length]. split; [rewrite IH1 | rewrite IH2]; lia.
Qed.

(** The generic loop counts the neighbours in [total]. *)
Lemma neighbor_accumulate_total {A : Type} (add : A -> A -> A)
    (get : SculptIdx -> A) (nis : list SculptIdx) :
  forall acc : A * Z,
    snd (neighbor_accumulate add get nis acc) = (snd acc + Z.of_nat (List.length nis))%Z.
Proof.
  induction nis as [| ni rest IH]; intros acc; cbn [neighbor_accumulate].
  - cbn [List.length]. lia.
  - rewrite IH. cbn [snd List.length]. lia.
Qed.

Lemma interior_unchanged_when_few (index : SculptIdx) :
  (List.length (ss_neighbors ss index) <= 2)%nat ->
  SCULPT_neighbor_coords_average_interior ss index = SCULPT_vertex_co_get ss index.
Proof.
  intros Hlen. unfold SCULPT_neighbor_coords_average_interior.
  pose proof (coords_average_interior_loop_counts
                (SCULPT_vertex_is_boundary ss index) (ss_neighbors ss index)
                zero_v3 0%Z 0%Z) as Hc.
  cbn zeta in Hc.
  destruct (coords_average_interior_loop ss (SCULPT_vertex_is_boundary ss index)
              (ss_neighbors ss index) (zero_v3, 0%Z, 0%Z)) as [[avg total] cnt].
  cbn [fst snd] in Hc. destruct Hc as [Hcnt _].
  replace (cnt <=? 2)%Z with true by (symmetry; apply Z.leb_le; lia).
  reflexivity.
Qed.

Lemma interior_unchanged_when_no_contributor (index : SculptIdx) :
  interior_contributors ss index = [] ->
  SCULPT_neighbor_coords_average_interior ss index = SCULPT_vertex_co_get ss index.
Proof.
  intros Hnil. unfold SCULPT_neighbor_coords_average_interior.
  pose proof (coords_average_interior_loop_counts
                (SCULPT_vertex_is_boundary ss index) (ss_neighbors ss index)
                zero_v3 0%Z 0%Z) as Hc.
  cbn zeta in Hc. unfold interior_contributors in Hnil.
  destruct (coords_average_interior_loop ss (SCULPT_vertex_is_boundary ss index)
              (ss_neighbors ss index) (zero_v3, 0%Z, 0%Z)) as [[avg total] cnt].
  cbn [fst snd] in Hc. destruct Hc as [_ Htot].
  rewrite Hnil in Htot. cbn [List.length] in Htot.
  destruct (cnt <=? 2)%Z; [reflexivity |].
  replace (total =? 0)%Z with true by (symmetry; apply Z.eqb_eq; lia).
  reflexivity.
Qed.

End AveragingLoops.

(** C2 (identity law).  A vertex without neighbours keeps its own value in
    each averaging primitive: the position average, the mask average, the
    color average and the boundary-aware interior average return the value
    stored at the vertex.  The interior average also returns the stored
    position whenever its boundary filtering leaves no contributing
    neighbour. *)
Theorem averages_identity_without_neighbors :
  forall (ss : SculptSession) (index : SculptIdx),
    (ss_neighbors ss index = [] ->
       SCULPT_neighbor_coords_average ss index = SCULPT_vertex_co_get ss index /\
       SCULPT_neighbor_mask_average ss index = SCULPT_vertex_mask_get ss index /\
       SCULPT_neighbor_color_average ss index = SCULPT_vertex_color_get ss index /\
       SCULPT_neighbor_coords_average_interior ss index = SCULPT_vertex_co_get ss index) /\
    (interior_contributors ss index = [] ->
       SCULPT_neighbor_coords_average_interior ss index = SCULPT_vertex_co_get ss index).
Proof.
  intros ss index. split.
  - intros Hnil. repeat split.
    + unfold SCULPT_neighbor_coords_average. rewrite Hnil. reflexivity.
    + unfold SCULPT_neighbor_mask_average. rewrite Hnil. reflexivity.
    + unfold SCULPT_neighbor_color_average. rewrite Hnil. reflexivity.
    + apply interior_unchanged_when_few. rewrite Hnil. cbn. lia.
  - apply interior_unchanged_when_no_contributor.
Qed.

(** Vertex 4 of the demo mesh has no neighbour; vertex 0 is a boundary
    vertex with three neighbours, none of them on the boundary. *)
Lemma averages_identity_without_neighbors_witness :
  (SCULPT_neighbor_coords_average demo_session 4%Z = V3 1 2 3 /\
   SCULPT_neighbor_mask_average demo_session 4%Z = 1 # 2 /\
   SCULPT_neighbor_color_average demo_session 4%Z = V4 (1 # 2) (1 # 4) 1 1 /\
   SCULPT_neighbor_coords_average_interior demo_session 4%Z = V3 1 2 3) /\
  List.length (ss_neighbors demo_session 0%Z) = 3%nat /\
  SCULPT_neighbor_coords_average_interior demo_session 0%Z = V3 0 0 0.
Proof.
  destruct (averages_identity_without_neighbors demo_session 4%Z) as [H4 _].
  destruct (averages_identity_without_neighbors demo_session 0%Z) as [_ H0].
  split; [exact (H4 eq_refl) | split; [reflexivity | exact (H0 eq_refl)]].
Defined.

(** C3 (corner preservation).  For a vertex with two or fewer neighbours
    the boundary-aware interior average is the unmodified position of the
    vertex, whatever the boundary flags of the vertex and of its
    neighbours. *)
Theorem interior_average_preserves_corners :
  forall (ss : SculptSession) (index : SculptIdx),
    (List.length (ss_neighbors ss index) <= 2)%nat ->
    SCULPT_neighbor_coords_average_interior ss index = SCULPT_vertex_co_get ss index.
Proof.
  intros ss index. apply interior_unchanged_when_few.
Qed.

(** Vertex 1 of the demo mesh has the two neighbours 0 and 5. *)
Lemma interior_average_preserves_corners_witness :
  List.length (ss_neighbors demo_session 1%Z) = 2%nat /\
  SCULPT_neighbor_coords_average_interior demo_session 1%Z = V3 3 0 0.
Proof.
  split; [reflexivity |].
  apply (interior_average_preserves_corners demo_session 1%Z). cbn. lia.
Defined.

(** ** Directional four-neighbour average *)

Section FourNeighbor.

Context {math : MathLib}.

(** A boundary edge anywhere in the edge sequence ends the loop early. *)
Lemma bmesh_loop_boundary (direction : vec3) (v : BMVert) (edges : list BMEdge) :
  existsb BM_edge_is_boundary edges = true ->
  forall acc, bmesh_four_neighbor_loop direction v edges acc = None.
Proof.
  induction edges as [| e rest IH]; cbn [existsb bmesh_four_neighbor_loop].
  - discriminate.
  - intros Hex acc. destruct (BM_edge_is_boundary e); [reflexivity |].
    destruct acc as [avg_co tot_co]. apply IH. exact Hex.
Qed.

Lemma trimesh_loop_boundary (direction : vec3) (v : TMVert) (edges : list TMEdge) :
  existsb TM_edge_is_boundary edges = true ->
  forall acc, trimesh_four_neighbor_loop direction v edges acc = None.
Proof.
  induction edges as [| e rest IH]; cbn [existsb trimesh_four_neighbor_loop].
  - discriminate.
  - intros Hex acc. destruct (TM_edge_is_boundary e); [reflexivity |].
    destruct acc as [avg_co tot_co]. apply IH. exact Hex.
Qed.

Lemma orthogonality_fac_nonneg (vec direction : vec3) :
  0 <= orthogonality_fac vec direction.
Proof.
  unfold orthogonality_fac. cbn zeta.
  set (f := dot_v3v3 vec direction * dot_v3v3 vec direction - (1 # 2)).
  nra.
Qed.

(** The accumulated weight never decreases. *)
Lemma bmesh_loop_weight (direction : vec3) (v : BMVert) (edges : list BMEdge) :
  forall avg0 tot0 avg_co tot_co,
    bmesh_four_neighbor_loop direction v edges (avg0, tot0) = Some (avg_co, tot_co) ->
    tot0 <= tot_co.
Proof.
  induction edges as [| e rest IH]; intros avg0 tot0 avg_co tot_co;
    cbn [bmesh_four_neighbor_loop].
  - intros [= _ <-]. lra.
  - destruct (BM_edge_is_boundary e); [discriminate |].
    intros Hloop. apply IH in Hloop.
    match type of Hloop with
    | _ + orthogonality_fac ?a ?b <= _ =>
        pose proof (orthogonality_fac_nonneg a b)
    end.
    lra.
Qed.

Lemma trimesh_loop_weight (direction : vec3) (v : TMVert) (edges : list TMEdge) :
  forall avg0 tot0 avg_co tot_co,
    trimesh_four_neighbor_loop direction v edges (avg0, tot0) = Some (avg_co, tot_co) ->
    tot0 <= tot_co.
Proof.
  induction edges as [| e rest IH]; intros avg0 tot0 avg_co tot_co;
    cbn [trimesh_four_neighbor_loop].
  - intros [= _ <-]. lra.
  - destruct (TM_edge_is_boundary e); [discriminate |].
    intros Hloop. apply IH in Hloop.
    match type of Hloop with
    | _ + orthogonality_fac ?a ?b <= _ =>
        pose proof (orthogonality_fac_nonneg a b)
    end.
    lra.
Qed.

Lemma four_neighbor_finish_no_weight (co no avg_co : vec3) (tot_co : float) :
  tot_co <= 0 -> four_neighbor_finish co no avg_co tot_co = zero_v3.
Proof.
  intros Hle. unfold four_neighbor_finish, float_gt, float_lt.
  replace (Qle_bool tot_co 0) with true
    by (symmetry; apply Qle_bool_iff; exact Hle).
  reflexivity.
Qed.

End FourNeighbor.

(** C4 (boundary short-circuit).  When one of the edges around the vertex
    is a boundary edge, the bmesh and the trimesh four-neighbour average
    both return the position of the vertex itself. *)
Theorem four_neighbor_average_boundary_short_circuit :
  forall (M : MathLib) (direction : vec3),
    (forall (v : BMVert) (edges_of_vert : list BMEdge),
        existsb BM_edge_is_boundary edges_of_vert = true ->
        SCULPT_bmesh_four_neighbor_average direction v edges_of_vert = bmv_co v) /\
    (forall (v : TMVert) (edges : list TMEdge),
        existsb TM_edge_is_boundary edges = true ->
        SCULPT_trimesh_four_neighbor_average direction v edges = tmv_co v).
Proof.
  intros M direction. split.
  - intros v edges Hex. unfold SCULPT_bmesh_four_neighbor_average.
    rewrite (bmesh_loop_boundary direction v edges Hex). reflexivity.
  - intros v edges Hex. unfold SCULPT_trimesh_four_neighbor_average.
    rewrite (trimesh_loop_boundary direction v edges Hex). reflexivity.
Qed.

(** In both demo edge fans the second edge is a boundary edge. *)
Lemma four_neighbor_average_boundary_short_circuit_witness :
  (existsb BM_edge_is_boundary demo_bmedges = true /\
   SCULPT_bmesh_four_neighbor_average (math := plain_math)
     demo_direction demo_bmvert demo_bmedges = V3 1 2 3) /\
  (existsb TM_edge_is_boundary demo_tmedges = true /\
   SCULPT_trimesh_four_neighbor_average (math := plain_math)
     demo_direction demo_tmvert demo_tmedges = V3 1 2 3).
Proof.
  destruct (four_neighbor_average_boundary_short_circuit plain_math demo_direction)
    as [Hbm Htm].
  split; (split; [reflexivity |]).
  - exact (Hbm demo_bmvert demo_bmedges eq_refl).
  - exact (Htm demo_tmvert demo_tmedges eq_refl).
Defined.

(** C5 as stated fails: a vertex at (1, 2, 3) without incident edges
    accumulates no weight, and both variants answer the zero vector where
    the claim expects (1, 2, 3). *)
Lemma four_neighbor_average_no_edges_not_identity :
  SCULPT_bmesh_four_neighbor_average (math := plain_math) demo_direction demo_bmvert []
    = V3 0 0 0 /\
  SCULPT_trimesh_four_neighbor_average (math := plain_math) demo_direction demo_tmvert []
    = V3 0 0 0 /\
  ~ (SCULPT_bmesh_four_neighbor_average (math := plain_math) demo_direction demo_bmvert []
       =v= bmv_co demo_bmvert) /\
  ~ (SCULPT_trimesh_four_neighbor_average (math := plain_math) demo_direction demo_tmvert []
       =v= tmv_co demo_tmvert).
Proof.
  repeat split; try reflexivity; intros [Hx _]; cbn in Hx; discriminate Hx.
Qed.

(** C5, amended.  When the edge loop completes (no boundary edge) the
    accumulated weight is never negative, and when it is not positive the
    bmesh and the trimesh variant both return the zero vector, not the
    position of the vertex; in particular a vertex without incident edges
    yields the zero vector.  Both functions are total: no error is
    raised. *)
Theorem four_neighbor_average_zero_weight :
  forall (M : MathLib) (direction : vec3),
    (forall v : BMVert,
        SCULPT_bmesh_four_neighbor_average direction v [] = zero_v3) /\
    (forall v : TMVert,
        SCULPT_trimesh_four_neighbor_average direction v [] = zero_v3) /\
    (forall (v : BMVert) (edges_of_vert : list BMEdge) (avg_co : vec3) (tot_co : float),
        bmesh_four_neighbor_loop direction v edges_of_vert (zero_v3, 0)
          = Some (avg_co, tot_co) ->
        0 <= tot_co /\
        (tot_co <= 0 ->
         SCULPT_bmesh_four_neighbor_average direction v edges_of_vert = zero_v3)) /\
    (forall (v : TMVert) (edges : list TMEdge) (avg_co : vec3) (tot_co : float),
        trimesh_four_neighbor_loop direction v edges (zero_v3, 0)
          = Some (avg_co, tot_co) ->
        0 <= tot_co /\
        (tot_co <= 0 ->
         SCULPT_trimesh_four_neighbor_average direction v edges = zero_v3)).
Proof.
  intros M direction.
  split; [reflexivity |]. split; [reflexivity |]. split.
  - intros v edges avg_co tot_co Hloop. split.
    + eapply bmesh_loop_weight; exact Hloop.
    + intros Hle. unfold SCULPT_bmesh_four_neighbor_average.
      rewrite Hloop. apply four_neighbor_finish_no_weight. exact Hle.
  - intros v edges avg_co tot_co Hloop. split.
    + eapply trimesh_loop_weight; exact Hloop.
    + intros Hle. unfold SCULPT_trimesh_four_neighbor_average.
      rewrite Hloop. apply four_neighbor_finish_no_weight. exact Hle.
Qed.

(** The loop over no edge ends with the weight 0. *)
Lemma four_neighbor_average_zero_weight_witness :
  SCULPT_bmesh_four_neighbor_average (math := plain_math) demo_direction demo_bmvert []
    = zero_v3 /\
  SCULPT_trimesh_four_neighbor_average (math := plain_math) demo_direction demo_tmvert []
    = zero_v3.
Proof.
  destruct (four_neighbor_average_zero_weight plain_math demo_direction)
    as (_ & _ & Hbm & Htm).
  split.
  - refine (proj2 (Hbm demo_bmvert [] zero_v3 0 eq_refl) _). discriminate.
  - refine (proj2 (Htm demo_tmvert [] zero_v3 0 eq_refl) _). discriminate.
Defined.

(** ** Iteration scheduling of [SCULPT_smooth] *)

Lemma float_lt_spec (a b : float) : float_lt a b = true <-> a < b.
Proof.
  unfold float_lt. rewrite negb_true_iff. split.
  - intros Hf. apply Qnot_le_lt. intros Hle.
    apply Qle_bool_iff in Hle. congruence.
  - intros Hlt. destruct (Qle_bool b a) eqn:Hb; [| reflexivity].
    apply Qle_bool_iff in Hb. lra.
Qed.

Lemma float_lt_false (a b : float) : float_lt a b = false <-> b <= a.
Proof.
  unfold float_lt. rewrite negb_false_iff. apply Qle_bool_iff.
Qed.

Lemma CLAMP_range (a : float) : 0 <= CLAMP a 0 1 <= 1.
Proof.
  unfold CLAMP, float_gt.
  destruct (float_lt a 0) eqn:H0; [lra |].
  destruct (float_lt 1 a) eqn:H1; [lra |].
  apply float_lt_false in H0, H1. lra.
Qed.

Lemma CLAMP_inside (a : float) : 0 <= a <= 1 -> CLAMP a 0 1 = a.
Proof.
  intros [H0 H1]. unfold CLAMP, float_gt.
  replace (float_lt a 0) with false by (symmetry; apply float_lt_false; exact H0).
  replace (float_lt 1 a) with false by (symmetry; apply float_lt_false; exact H1).
  reflexivity.
Qed.

Lemma clamp_f_range (a : float) : 0 <= clamp_f a 0 1 <= 1.
Proof.
  unfold clamp_f, float_gt.
  destruct (float_lt 1 a) eqn:H1; [lra |].
  destruct (float_lt a 0) eqn:H0; [lra |].
  apply float_lt_false in H0, H1. lra.
Qed.














(** ** Surface (HC) smoothing *)

Lemma tag_pbvh_update_co (ss : SculptSession) (index : SculptIdx) :
  ss_co (tag_pbvh_update ss index) = ss_co ss.
Proof. unfold tag_pbvh_update. destruct (ss_has_mvert ss); reflexivity. Qed.

Lemma tag_pbvh_update_mask (ss : SculptSession) (index : SculptIdx) :
  ss_mask (tag_pbvh_update ss index) = ss_mask ss.
Proof. unfold tag_pbvh_update. destruct (ss_has_mvert ss); reflexivity. Qed.

Lemma tag_pbvh_update_laplacian_disp (ss : SculptSession) (index : SculptIdx) :
  cache_surface_smooth_laplacian_disp (tag_pbvh_update ss index)
  = cache_surface_smooth_laplacian_disp ss.
Proof. unfold tag_pbvh_update. destruct (ss_has_mvert ss); reflexivity. Qed.

Lemma store_same {A : Type} (arr : SculptIdx -> A) (index : SculptIdx) (x : A) :
  store arr index x index = x.
Proof. unfold store. rewrite Z.eqb_refl. reflexivity. Qed.

Lemma store_other {A : Type} (arr : SculptIdx -> A) (index j : SculptIdx) (x : A) :
  j <> index -> store arr index x j = arr j.
Proof.
  intros Hne. unfold store.
  replace (j =? index)%Z with false by (symmetry; apply Z.eqb_neq; exact Hne).
  reflexivity.
Qed.

(** C6 as stated fails: with shape preservation 1 and a brush at full
    strength, the predict pass over vertex 0 of the demo mesh (at the
    origin, its original position, with the neighbour average (1, 1, 1))
    moves the vertex to (1, 1, 1). *)
Lemma surface_smooth_alpha_one_moves_vertex :
  surface_smooth_shape_preservation (data_brush demo_surface_data) = 1 /\
  ss_co demo_session 0%Z = V3 0 0 0 /\
  ss_orig_co demo_session 0%Z = V3 0 0 0 /\
  ss_co (SCULPT_do_surface_smooth_brush_laplacian_task_cb_ex
           (services := full_brush_services) demo_surface_data 0 demo_session) 0%Z
    =v= V3 1 1 1 /\
  ~ (ss_co (SCULPT_do_surface_smooth_brush_laplacian_task_cb_ex
              (services := full_brush_services) demo_surface_data 0 demo_session) 0%Z
       =v= ss_co demo_session 0%Z).
Proof.
  repeat split; try reflexivity; intros [Hx _]; vm_compute in Hx; discriminate Hx.
Qed.

(** C6, amended.  With shape preservation [alpha = 1] the target [d] of
    the predict pass is the original position of the vertex, so the stored
    correction [laplacian_disp[v]] is the neighbour average minus the
    original position.  The displacement of the pass does not involve
    [alpha]: it is the neighbour average minus the current position, and a
    vertex that passes the brush test is moved by it, scaled by the
    falloff strength clamped to [[0, 1]]. *)
Theorem surface_smooth_laplacian_alpha_one :
  forall (S : SculptServices) (brush : Brush) (bstrength alpha : float)
         (sculpt_brush_test_sq_fn : vec3 -> option float)
         (ss : SculptSession) (v : SculptIdx),
    alpha == 1 ->
    let avg := SCULPT_neighbor_coords_average ss v in
    (forall (co origco : vec3) (laplacian_disp : SculptIdx -> vec3),
        snd (SCULPT_surface_smooth_laplacian_step ss co laplacian_disp v origco alpha) v
          =v= vminus avg origco /\
        fst (SCULPT_surface_smooth_laplacian_step ss co laplacian_disp v origco alpha)
          =v= vminus avg co) /\
    (forall test_dist : float,
        sculpt_brush_test_sq_fn (ss_co ss v) = Some test_dist ->
        let fade :=
          bstrength *
          SCULPT_brush_strength_factor ss brush (ss_co ss v) test_dist
            (ss_no ss v) (ss_fno ss v)
            (if ss_has_mask ss then ss_mask ss v else 0) v in
        let ss' :=
          surface_smooth_laplacian_vertex brush bstrength alpha
            sculpt_brush_test_sq_fn ss v in
        cache_surface_smooth_laplacian_disp ss' v =v= vminus avg (ss_orig_co ss v) /\
        ss_co ss' v
          =v= vplus (ss_co ss v) (vscale (clamp_f fade 0 1) (vminus avg (ss_co ss v)))).
Proof.
  intros S brush bstrength alpha test ss v Halpha avg.
  assert (Hstep : forall (co origco : vec3) (laplacian_disp : SculptIdx -> vec3),
             snd (SCULPT_surface_smooth_laplacian_step ss co laplacian_disp v origco alpha) v
               =v= vminus avg origco /\
             fst (SCULPT_surface_smooth_laplacian_step ss co laplacian_disp v origco alpha)
               =v= vminus avg co).
  { intros co origco ld. unfold SCULPT_surface_smooth_laplacian_step.
    cbn [fst snd]. rewrite store_same. fold avg. split.
    - unfold veq; cbn; rewrite !Halpha; repeat split; ring.
    - solve_veq. }
  split; [exact Hstep |].
  intros test_dist Htest fade ss'. subst ss'.
  unfold surface_smooth_laplacian_vertex. rewrite Htest.
  destruct (Hstep (ss_co ss v) (ss_orig_co ss v)
              (cache_surface_smooth_laplacian_disp ss)) as [Hd _].
  destruct (SCULPT_surface_smooth_laplacian_step ss (ss_co ss v)
              (cache_surface_smooth_laplacian_disp ss) v (ss_orig_co ss v) alpha)
    as [disp ld'] eqn:Hs.
  rewrite tag_pbvh_update_laplacian_disp, tag_pbvh_update_co.
  cbn [set_co set_laplacian_disp ss_co cache_surface_smooth_laplacian_disp].
  rewrite store_same. split; [exact Hd |].
  unfold SCULPT_surface_smooth_laplacian_step in Hs. injection Hs as Hdisp _.
  subst disp. fold avg. fold fade.
  solve_veq.
Qed.

(** Vertex 0 of the demo mesh under the full-strength brush. *)
Lemma surface_smooth_laplacian_alpha_one_witness :
  cache_surface_smooth_laplacian_disp
    (surface_smooth_laplacian_vertex (services := full_brush_services) demo_brush 1 1
       (fun _ => Some 0) demo_session 0%Z) 0%Z
    =v= V3 1 1 1 /\
  ss_co
    (surface_smooth_laplacian_vertex (services := full_brush_services) demo_brush 1 1
       (fun _ => Some 0) demo_session 0%Z) 0%Z
    =v= V3 1 1 1.
Proof.
  destruct (surface_smooth_laplacian_alpha_one full_brush_services demo_brush 1 1
              (fun _ => Some 0) demo_session 0%Z (Qeq_refl 1)) as [_ Hv].
  destruct (Hv 0 eq_refl) as [Hd Hco].
  split.
  - destruct Hd as (Hx & Hy & Hz).
    split; [| split]; [rewrite Hx | rewrite Hy | rewrite Hz]; reflexivity.
  - destruct Hco as (Hx & Hy & Hz).
    split; [| split]; [rewrite Hx | rewrite Hy | rewrite Hz]; reflexivity.
Defined.

(** The accumulation loop over vectors adds up the values of the
    neighbours. *)
Lemma neighbor_accumulate_v3_sum (get : SculptIdx -> vec3) (nis : list SculptIdx) :
  forall (acc : vec3) (total : Z),
    fst (neighbor_accumulate add_v3_v3 get nis (acc, total))
      =v= vplus acc (vsum (map get nis)).
Proof.
  induction nis as [| ni rest IH]; intros acc total.
  - solve_veq.
  - cbn [neighbor_accumulate fst snd map vsum fold_right].
    fold (vsum (map get rest)).
    destruct (IH (add_v3_v3 acc (get ni)) (total + 1)%Z) as (Hx & Hy & Hz).
    unfold veq. rewrite Hx, Hy, Hz. cbn. repeat split; ring.
Qed.

(** C7 (displacement damping).  For a vertex with [N >= 1] neighbours the
    displace step subtracts from the current position the vector
    [beta * laplacian_disp[v] + ((1 - beta) / N) * sum of laplacian_disp
    over the neighbours], scaled by the falloff strength clamped to
    [[0, 1]]. *)
Theorem surface_smooth_displace_step_formula :
  forall (ss : SculptSession) (co : vec3) (laplacian_disp : SculptIdx -> vec3)
         (v_index : SculptIdx) (beta fade : float),
    ss_neighbors ss v_index <> [] ->
    let N := int_to_float (Z.of_nat (List.length (ss_neighbors ss v_index))) in
    0 <= clamp_f fade 0 1 <= 1 /\
    SCULPT_surface_smooth_displace_step ss co laplacian_disp v_index beta fade
      =v= vminus co
            (vscale (clamp_f fade 0 1)
               (vplus (vscale beta (laplacian_disp v_index))
                  (vscale ((1 - beta) / N)
                     (vsum (map laplacian_disp (ss_neighbors ss v_index)))))).
Proof.
  intros ss co ld v beta fade Hne N. split; [apply clamp_f_range |].
  unfold SCULPT_surface_smooth_displace_step.
  pose proof (neighbor_accumulate_total add_v3_v3 ld (ss_neighbors ss v)
                (zero_v3, 0%Z)) as Htot.
  pose proof (neighbor_accumulate_v3_sum ld (ss_neighbors ss v) zero_v3 0%Z)
    as (Hx & Hy & Hz).
  destruct (neighbor_accumulate add_v3_v3 ld (ss_neighbors ss v) (zero_v3, 0%Z))
    as [b_avg total].
  cbn [fst snd] in Htot, Hx, Hy, Hz. rewrite Z.add_0_l in Htot. subst total.
  fold N.
  assert (Hpos : (Z.of_nat (List.length (ss_neighbors ss v)) >? 0)%Z = true).
  { destruct (ss_neighbors ss v); [congruence |]. cbn [List.length]. apply Z.gtb_lt. lia. }
  rewrite Hpos.
  set (k := (1 - beta) / N). set (f := clamp_f fade 0 1).
  unfold veq. cbn. cbn in Hx, Hy, Hz. rewrite Hx, Hy, Hz.
  repeat split; ring.
Qed.

(** Vertex 0 of the demo mesh: three neighbours, [beta = 1/2], falloff
    strength 2 (clamped to 1), starting from (10, 10, 10). *)
Lemma surface_smooth_displace_step_formula_witness :
  SCULPT_surface_smooth_displace_step demo_session (V3 10 10 10)
    (cache_surface_smooth_laplacian_disp demo_session) 0%Z (1 # 2) 2
    =v= V3 (55 # 6) (53 # 6) (17 # 2).
Proof.
  destruct (surface_smooth_displace_step_formula demo_session (V3 10 10 10)
              (cache_surface_smooth_laplacian_disp demo_session) 0%Z (1 # 2) 2)
    as [_ (Hx & Hy & Hz)].
  - discriminate.
  - split; [| split]; [rewrite Hx | rewrite Hy | rewrite Hz]; reflexivity.
Defined.

(** ** The orchestrator and its kernel *)

(** C9 (missing face map).  On a face-based mesh ([PBVH_FACES]) whose
    [pmap] is missing, [SCULPT_smooth] reports the assertion
    "sculpt smooth: pmap missing" and returns at once: no service is
    called, no kernel is dispatched, and the session is the one it was
    given. *)
Theorem SCULPT_smooth_pmap_missing :
  forall (S : SculptServices) (sd : Sculpt) (ss : SculptSession)
         (nodes : list PBVHNode) (totnode : Z) (bstrength : float)
         (smooth_mask : bool),
    ss_pbvh_type ss = PBVH_FACES ->
    ss_pmap ss = false ->
    SCULPT_smooth sd ss nodes totnode bstrength smooth_mask =
    {| smooth_assert := Some "sculpt smooth: pmap missing"%string;
       smooth_session := ss |}.
Proof.
  intros S sd ss nodes totnode bstrength smooth_mask Htype Hpmap.
  unfold SCULPT_smooth. cbn zeta. rewrite Htype, Hpmap. reflexivity.
Qed.

(** The demo mesh as a face-based mesh without [pmap], at full strength. *)
Lemma SCULPT_smooth_pmap_missing_witness :
  SCULPT_smooth (services := full_brush_services) demo_sculpt demo_faces_session
    demo_nodes 2 1 false =
  {| smooth_assert := Some "sculpt smooth: pmap missing"%string;
     smooth_session := demo_faces_session |}.
Proof.
  apply (SCULPT_smooth_pmap_missing full_brush_services); reflexivity.
Defined.

Section MaskKernel.

Context {services : SculptServices}.
Variable data : SculptThreadedTaskData.
Variable bstrength : float.
Variable test : vec3 -> option float.
Hypothesis mask_mode : data_smooth_mask data = true.

Lemma mask_step_co (ss : SculptSession) (v : SculptIdx) :
  ss_co (smooth_brush_vertex data bstrength test ss v) = ss_co ss.
Proof.
  unfold smooth_brush_vertex. rewrite mask_mode.
  destruct (test (ss_co ss v)); [| reflexivity].
  rewrite tag_pbvh_update_co. reflexivity.
Qed.

(** The mask written for a vertex that passes the brush test. *)
Lemma mask_step_written (ss : SculptSession) (v : SculptIdx) :
  test (ss_co ss v) <> None ->
  0 <= ss_mask (smooth_brush_vertex data bstrength test ss v) v <= 1.
Proof.
  intros Htest. unfold smooth_brush_vertex. rewrite mask_mode.
  destruct (test (ss_co ss v)); [| congruence].
  rewrite tag_pbvh_update_mask. cbn [set_mask ss_mask].
  rewrite store_same. apply CLAMP_range.
Qed.

(** A mask within range stays within range across a step, at every
    vertex. *)
Lemma mask_step_stable (ss : SculptSession) (v w : SculptIdx) :
  0 <= ss_mask ss w <= 1 ->
  0 <= ss_mask (smooth_brush_vertex data bstrength test ss v) w <= 1.
Proof.
  intros Hw. unfold smooth_brush_vertex. rewrite mask_mode.
  destruct (test (ss_co ss v)); [| exact Hw].
  rewrite tag_pbvh_update_mask. cbn [set_mask ss_mask].
  destruct (Z.eq_dec w v) as [-> | Hne].
  - rewrite store_same. apply CLAMP_range.
  - rewrite store_other by exact Hne. exact Hw.
Qed.

Lemma mask_fold_stable (l : list SculptIdx) :
  forall (ss : SculptSession) (w : SculptIdx),
    0 <= ss_mask ss w <= 1 ->
    0 <= ss_mask (fold_left (smooth_brush_vertex data bstrength test) l ss) w <= 1.
Proof.
  induction l as [| a rest IH]; intros ss w Hw; cbn [fold_left].
  - exact Hw.
  - apply IH. apply mask_step_stable. exact Hw.
Qed.

Lemma mask_fold_co (l : list SculptIdx) :
  forall ss : SculptSession,
    ss_co (fold_left (smooth_brush_vertex data bstrength test) l ss) = ss_co ss.
Proof.
  induction l as [| a rest IH]; intros ss; cbn [fold_left].
  - reflexivity.
  - rewrite IH. apply mask_step_co.
Qed.

(** Every vertex of the list that passes the brush test ends within
    range, whatever its mask was before. *)
Lemma mask_fold_processed (l : list SculptIdx) :
  forall (ss : SculptSession) (v : SculptIdx),
    In v l ->
    test (ss_co ss v) <> None ->
    0 <= ss_mask (fold_left (smooth_brush_vertex data bstrength test) l ss) v <= 1.
Proof.
  induction l as [| a rest IH]; intros ss v Hin Htest; cbn [fold_left].
  - destruct Hin.
  - destruct (Z.eq_dec a v) as [-> | Hne].
    + apply mask_fold_stable. apply mask_step_written. exact Htest.
    + destruct Hin as [Heq | Hin]; [congruence |].
      apply IH; [exact Hin |]. rewrite mask_step_co. exact Htest.
Qed.

End MaskKernel.

(** C10 (mask range).  In mask-smoothing mode every mask value the kernel
    writes is clamped to [[0, 1]]: the step on a vertex that passes the
    brush test leaves its mask in [[0, 1]], every such vertex of a node
    ends the node task with a mask in [[0, 1]], and a node task, hence a
    whole iteration over the nodes, preserves the invariant that all
    masks lie in [[0, 1]]. *)
Theorem smooth_mask_kernel_clamps :
  forall (S : SculptServices) (data : SculptThreadedTaskData),
    data_smooth_mask data = true ->
    (forall (bstrength : float) (sculpt_brush_test_sq_fn : vec3 -> option float)
            (ss : SculptSession) (v : SculptIdx),
        sculpt_brush_test_sq_fn (ss_co ss v) <> None ->
        0 <= ss_mask (smooth_brush_vertex data bstrength sculpt_brush_test_sq_fn ss v) v
          <= 1) /\
    (forall (n : Z) (ss : SculptSession) (v : SculptIdx),
        In v (nth (Z.to_nat n) (data_nodes data) []) ->
        SCULPT_brush_test_init_with_falloff_shape ss
          (falloff_shape (data_brush data)) (ss_co ss v) <> None ->
        0 <= ss_mask (do_smooth_brush_task_cb_ex data n ss) v <= 1) /\
    (forall (n : Z) (ss : SculptSession),
        mask_in_range ss -> mask_in_range (do_smooth_brush_task_cb_ex data n ss)) /\
    (forall (totnode : Z) (ss : SculptSession),
        mask_in_range ss ->
        mask_in_range
          (BLI_task_parallel_range 0 totnode (do_smooth_brush_task_cb_ex data) ss)).
Proof.
  intros S data Hmode.
  assert (Htask : forall (n : Z) (ss : SculptSession),
             mask_in_range ss -> mask_in_range (do_smooth_brush_task_cb_ex data n ss)).
  { intros n ss Hrange v. unfold do_smooth_brush_task_cb_ex. cbn zeta.
    apply mask_fold_stable; [assumption | apply Hrange]. }
  split; [| split; [| split; [exact Htask |]]]; cycle 2.
  { intros totnode ss. unfold BLI_task_parallel_range.
    generalize (map (fun i : nat => (0 + Z.of_nat i)%Z) (seq 0 (Z.to_nat (totnode - 0)))).
    intros ns. revert ss. induction ns as [| n rest IH]; intros ss Hrange; cbn [fold_left].
    - exact Hrange.
    - apply IH. apply Htask. exact Hrange. }
  - intros bstrength test ss v Htest. apply mask_step_written; assumption.
  - intros n ss v Hin Htest. unfold do_smooth_brush_task_cb_ex. cbn zeta.
    apply mask_fold_processed; assumption.
Qed.

Lemma demo_session_mask_in_range : mask_in_range demo_session.
Proof.
  intros v. cbn [demo_session ss_mask].
  destruct (v =? 0)%Z; [lra |]. destruct (v =? 4)%Z; lra.
Qed.

(** Mask smoothing of the demo mesh under the brush of factor 3: vertex 0
    has the mask 1 and neighbours of mask 0, so the update reaches -2
    before the clamp. *)
Lemma smooth_mask_kernel_clamps_witness :
  ss_mask demo_session 0%Z
    + (SCULPT_neighbor_mask_average demo_session 0%Z - ss_mask demo_session 0%Z)
      * (1 * 3 * 1) == - (2) /\
  0 <= ss_mask (do_smooth_brush_task_cb_ex (services := strong_brush_services)
                  demo_mask_data 0 demo_session) 0%Z <= 1 /\
  mask_in_range (do_smooth_brush_task_cb_ex (services := strong_brush_services)
                   demo_mask_data 0 demo_session).
Proof.
  destruct (smooth_mask_kernel_clamps strong_brush_services demo_mask_data eq_refl)
    as (_ & Hnode & Hinv & _).
  split; [reflexivity | split].
  - apply Hnode.
    + cbn. left. reflexivity.
    + discriminate.
  - apply Hinv. exact demo_session_mask_in_range.
Defined.

Lemma veq_refl (a : vec3) : a =v= a.
Proof. unfold veq. repeat split; reflexivity. Qed.





Section ZeroStrength.

Context {services : SculptServices}.

(** No axis lock or mirror clip steps in: a target equal to the current
    position leaves the position as it is. *)
Hypothesis clip_keeps :
  forall (sd : Sculpt) (ss : SculptSession) (co val : vec3),
    val =v= co -> SCULPT_clip sd ss co val =v= co.

Variable data : SculptThreadedTaskData.





End ZeroStrength.








Lemma clamped_mesh_in_range (a b : SculptSession) :
  clamped_mesh a b -> mask_in_range b -> same_mesh a b.
Proof.
  intros Hab Hb v. destruct (Hab v) as [Hco [Hm | Hm]]; split; try assumption.
  rewrite Hm, CLAMP_inside by apply Hb. reflexivity.
Qed.

Section ZeroStrengthClamped.

Context {services : SculptServices}.

Hypothesis clip_keeps :
  forall (sd : Sculpt) (ss : SculptSession) (co val : vec3),
    val =v= co -> SCULPT_clip sd ss co val =v= co.

Variable data : SculptThreadedTaskData.





End ZeroStrengthClamped.




(** * Further properties of the smoothing code *)

(** ** The averages as arithmetic means *)

Section AverageAsMean.

Variable ss : SculptSession.

(** With no boundary filtering the interior loop is the generic loop. *)
Lemma interior_loop_unfiltered (nis : list SculptIdx) :
  forall (avg : vec3) (total neighbor_count : Z),
    coords_average_interior_loop ss false nis (avg, total, neighbor_count) =
    (neighbor_accumulate add_v3_v3 (SCULPT_vertex_co_get ss) nis (avg, total),
     (neighbor_count + Z.of_nat (List.length nis))%Z).
Proof.
  induction nis as [| ni rest IH]; intros avg total neighbor_count.
  - cbn. rewrite Z.add_0_r. reflexivity.
  - cbn [coords_average_interior_loop neighbor_accumulate fst snd]. rewrite IH.
    f_equal. cbn [List.length]. lia.
Qed.

Lemma neighbor_accumulate_float_sum (get : SculptIdx -> float) (nis : list SculptIdx) :
  forall (acc : float) (total : Z),
    fst (neighbor_accumulate Qplus get nis (acc, total)) == acc + fsum (map get nis).
Proof.
  induction nis as [| ni rest IH]; intros acc total.
  - cbn. ring.
  - cbn [neighbor_accumulate fst snd map fsum fold_right].
    fold (fsum (map get rest)). rewrite IH. ring.
Qed.

Lemma neighbors_positive (index : SculptIdx) :
  ss_neighbors ss index <> [] ->
  (Z.of_nat (List.length (ss_neighbors ss index)) >? 0)%Z = true.
Proof.
  intros Hne. destruct (ss_neighbors ss index); [congruence |].
  cbn [List.length]. apply Z.gtb_lt. lia.
Qed.

End AverageAsMean.

Lemma interior_is_plain (ss : SculptSession) (index : SculptIdx) :
  SCULPT_vertex_is_boundary ss index = false ->
  (2 < List.length (ss_neighbors ss index))%nat ->
  SCULPT_neighbor_coords_average_interior ss index =
  SCULPT_neighbor_coords_average ss index.
Proof.
  intros Hb Hlen.
  unfold SCULPT_neighbor_coords_average_interior, SCULPT_neighbor_coords_average.
  rewrite Hb, interior_loop_unfiltered.
  pose proof (neighbor_accumulate_total add_v3_v3 (SCULPT_vertex_co_get ss)
                (ss_neighbors ss index) (zero_v3, 0%Z)) as Htot.
  destruct (neighbor_accumulate add_v3_v3 (SCULPT_vertex_co_get ss)
              (ss_neighbors ss index) (zero_v3, 0%Z)) as [avg total].
  cbn [snd] in Htot. subst total.
  replace (0 + Z.of_nat (List.length (ss_neighbors ss index)) <=? 2)%Z with false
    by (symmetry; apply Z.leb_gt; lia).
  replace (0 + Z.of_nat (List.length (ss_neighbors ss index)) =? 0)%Z with false
    by (symmetry; apply Z.eqb_neq; lia).
  replace (0 + Z.of_nat (List.length (ss_neighbors ss index)) >? 0)%Z with true
    by (symmetry; apply Z.gtb_lt; lia).
  reflexivity.
Qed.

(** X1.  For a vertex that is not on the boundary and has more than two
    neighbours the boundary-aware interior average is the plain neighbour
    average. *)
Theorem interior_average_is_plain_average :
  forall (ss : SculptSession) (index : SculptIdx),
    SCULPT_vertex_is_boundary ss index = false ->
    (2 < List.length (ss_neighbors ss index))%nat ->
    SCULPT_neighbor_coords_average_interior ss index =
    SCULPT_neighbor_coords_average ss index.
Proof.
  intros ss index Hb Hlen. apply interior_is_plain; assumption.
Qed.

Lemma coords_average_mean (ss : SculptSession) (index : SculptIdx) :
  ss_neighbors ss index <> [] ->
  SCULPT_neighbor_coords_average ss index
    =v= vscale (1 / int_to_float (Z.of_nat (List.length (ss_neighbors ss index))))
          (vsum (map (ss_co ss) (ss_neighbors ss index))).
Proof.
  intros Hne. unfold SCULPT_neighbor_coords_average.
  pose proof (neighbor_accumulate_total add_v3_v3 (SCULPT_vertex_co_get ss)
                (ss_neighbors ss index) (zero_v3, 0%Z)) as Htot.
  pose proof (neighbor_accumulate_v3_sum (SCULPT_vertex_co_get ss)
                (ss_neighbors ss index) zero_v3 0%Z) as (Hx & Hy & Hz).
  destruct (neighbor_accumulate add_v3_v3 (SCULPT_vertex_co_get ss)
              (ss_neighbors ss index) (zero_v3, 0%Z)) as [avg total].
  cbn [fst snd] in Htot, Hx, Hy, Hz. rewrite Z.add_0_l in Htot. subst total.
  rewrite neighbors_positive by exact Hne.
  change (SCULPT_vertex_co_get ss) with (ss_co ss) in Hx, Hy, Hz.
  set (k := 1 / int_to_float _). unfold veq. cbn. cbn in Hx, Hy, Hz.
  rewrite Hx, Hy, Hz. repeat split; ring.
Qed.

Lemma mask_average_mean (ss : SculptSession) (index : SculptIdx) :
  ss_neighbors ss index <> [] ->
  SCULPT_neighbor_mask_average ss index
    == fsum (map (ss_mask ss) (ss_neighbors ss index))
       / int_to_float (Z.of_nat (List.length (ss_neighbors ss index))).
Proof.
  intros Hne. unfold SCULPT_neighbor_mask_average.
  pose proof (neighbor_accumulate_total Qplus (SCULPT_vertex_mask_get ss)
                (ss_neighbors ss index) (0, 0%Z)) as Htot.
  pose proof (neighbor_accumulate_float_sum (SCULPT_vertex_mask_get ss)
                (ss_neighbors ss index) 0 0%Z) as Hsum.
  destruct (neighbor_accumulate Qplus (SCULPT_vertex_mask_get ss)
              (ss_neighbors ss index) (0, 0%Z)) as [avg total].
  cbn [fst snd] in Htot, Hsum. rewrite Z.add_0_l in Htot. subst total.
  rewrite neighbors_positive by exact Hne.
  change (SCULPT_vertex_mask_get ss) with (ss_mask ss) in Hsum.
  rewrite Hsum. unfold Qdiv. ring.
Qed.

(** X2.  For a vertex with [N >= 1] neighbours the position average is the
    arithmetic mean of the neighbour positions and the mask average the
    arithmetic mean of the neighbour masks. *)
Theorem neighbor_averages_are_means :
  forall (ss : SculptSession) (index : SculptIdx),
    ss_neighbors ss index <> [] ->
    let N := int_to_float (Z.of_nat (List.length (ss_neighbors ss index))) in
    SCULPT_neighbor_coords_average ss index
      =v= vscale (1 / N) (vsum (map (ss_co ss) (ss_neighbors ss index))) /\
    SCULPT_neighbor_mask_average ss index
      == fsum (map (ss_mask ss) (ss_neighbors ss index)) / N.
Proof.
  intros ss index Hne N. split.
  - apply coords_average_mean. exact Hne.
  - apply mask_average_mean. exact Hne.
Qed.

(** Vertex 0 of the demo mesh: the mean of (3,0,0), (0,3,0), (0,0,3) and
    of the masks 0, 0, 0. *)
Lemma neighbor_averages_are_means_witness :
  SCULPT_neighbor_coords_average demo_session 0%Z =v= V3 1 1 1 /\
  SCULPT_neighbor_mask_average demo_session 0%Z == 0.
Proof.
  destruct (neighbor_averages_are_means demo_session 0%Z) as [(Hx & Hy & Hz) Hm].
  - discriminate.
  - split.
    + split; [| split]; [rewrite Hx | rewrite Hy | rewrite Hz]; reflexivity.
    + rewrite Hm. reflexivity.
Defined.

(** Vertex 0 of the demo mesh without boundary has three neighbours. *)
Lemma interior_average_is_plain_average_witness :
  SCULPT_neighbor_coords_average_interior demo_interior_session 0%Z =
  SCULPT_neighbor_coords_average demo_interior_session 0%Z.
Proof.
  apply (interior_average_is_plain_average demo_interior_session 0%Z).
  - reflexivity.
  - cbn. lia.
Defined.

(** ** Range of the mask average *)

Lemma fsum_range (l : list float) :
  (forall x, In x l -> 0 <= x <= 1) ->
  0 <= fsum l <= inject_Z (Z.of_nat (List.length l)).
Proof.
  induction l as [| x l IH]; intros Hall.
  - split; apply (Qle_refl 0).
  - cbn [fsum fold_right List.length]. fold (fsum l).
    rewrite Nat2Z.inj_succ. unfold Z.succ. rewrite inject_Z_plus.
    change (inject_Z 1) with 1.
    pose proof (Hall x (or_introl eq_refl)) as Hx.
    assert (Hl : 0 <= fsum l <= inject_Z (Z.of_nat (List.length l))).
    { apply IH. intros y Hy. apply Hall. right. exact Hy. }
    lra.
Qed.

(** X4.  While every mask lies in [[0, 1]] the neighbour mask average lies
    in [[0, 1]], and moving a mask towards it by a factor [k] in [[0, 1]]
    stays in [[0, 1]]: the clamp after the update only acts when the
    brush factor overshoots. *)
Theorem mask_average_in_range :
  forall (ss : SculptSession) (index : SculptIdx),
    mask_in_range ss ->
    0 <= SCULPT_neighbor_mask_average ss index <= 1 /\
    (forall k : float,
        0 <= k <= 1 ->
        let vd_mask :=
          ss_mask ss index
          + (SCULPT_neighbor_mask_average ss index - ss_mask ss index) * k in
        CLAMP vd_mask 0 1 = vd_mask).
Proof.
  intros ss index Hrange.
  assert (Havg : 0 <= SCULPT_neighbor_mask_average ss index <= 1).
  { destruct (ss_neighbors ss index) as [| n rest] eqn:Hn.
    - unfold SCULPT_neighbor_mask_average. rewrite Hn. cbn. apply Hrange.
    - assert (Hne : ss_neighbors ss index <> []) by (rewrite Hn; discriminate).
      rewrite (mask_average_mean ss index Hne).
      pose proof (fsum_range (map (ss_mask ss) (ss_neighbors ss index))) as Hs.
      rewrite length_map in Hs.
      assert (Hall : forall x, In x (map (ss_mask ss) (ss_neighbors ss index)) ->
                               0 <= x <= 1).
      { intros x Hin. apply in_map_iff in Hin. destruct Hin as [w [Heq _]].
        rewrite <- Heq. apply Hrange. }
      specialize (Hs Hall). unfold int_to_float.
      set (N := inject_Z (Z.of_nat (List.length (ss_neighbors ss index)))) in *.
      assert (HN : 0 < N).
      { subst N. rewrite Hn. cbn [List.length]. rewrite Nat2Z.inj_succ.
        unfold Z.succ. rewrite inject_Z_plus. change (inject_Z 1) with 1.
        assert (Hz : inject_Z 0 <= inject_Z (Z.of_nat (List.length rest)))
          by (rewrite <- Zle_Qle; apply Nat2Z.is_nonneg).
        change (inject_Z 0) with 0 in Hz. lra. }
      split.
      + apply Qle_shift_div_l; [exact HN | lra].
      + apply Qle_shift_div_r; [exact HN | lra]. }
  split; [exact Havg |].
  intros k Hk vd_mask. apply CLAMP_inside. subst vd_mask.
  pose proof (Hrange index) as Hm.
  set (a := SCULPT_neighbor_mask_average ss index) in *.
  set (m := ss_mask ss index) in *.
  split; nra.
Qed.

(** Vertex 1 of the demo mesh (mask 0) with the neighbours 0 (mask 1) and
    5 (mask 0): the average is 1/2. *)
Lemma mask_average_in_range_witness :
  0 <= SCULPT_neighbor_mask_average demo_session 1%Z <= 1 /\
  CLAMP (ss_mask demo_session 1%Z
         + (SCULPT_neighbor_mask_average demo_session 1%Z - ss_mask demo_session 1%Z)
           * (1 # 2)) 0 1
  = ss_mask demo_session 1%Z
    + (SCULPT_neighbor_mask_average demo_session 1%Z - ss_mask demo_session 1%Z)
      * (1 # 2).
Proof.
  destruct (mask_average_in_range demo_session 1%Z demo_session_mask_in_range)
    as [Havg Hclamp].
  split; [exact Havg |]. apply Hclamp. lra.
Defined.

(** ** The two four-neighbour averages *)

Lemma four_neighbor_loops_agree {math : MathLib} (direction : vec3) (v : BMVert)
    (edges : list BMEdge) :
  forall acc : vec3 * float,
    trimesh_four_neighbor_loop direction (TMVert_of_BMVert v)
      (map TMEdge_of_BMEdge edges) acc =
    bmesh_four_neighbor_loop direction v edges acc.
Proof.
  induction edges as [| e rest IH]; intros [avg_co tot_co];
    cbn [map trimesh_four_neighbor_loop bmesh_four_neighbor_loop]; [reflexivity |].
  unfold TM_edge_is_boundary, BM_edge_is_boundary.
  cbn [TMEdge_of_BMEdge tme_is_boundary tme_v1 tme_v2 TMVert_of_BMVert
       tmv_addr tmv_co tmv_no].
  destruct (bme_is_boundary e); [reflexivity |].
  rewrite IH.
  destruct (bmv_addr (bme_v1 e) =? bmv_addr v)%Z; reflexivity.
Qed.

(** X5.  The trimesh variant of the four-neighbour average computes the
    same position as the bmesh variant on the same vertex and edges. *)
Theorem four_neighbor_variants_agree :
  forall (M : MathLib) (direction : vec3) (v : BMVert) (edges_of_vert : list BMEdge),
    SCULPT_trimesh_four_neighbor_average direction (TMVert_of_BMVert v)
      (map TMEdge_of_BMEdge edges_of_vert) =
    SCULPT_bmesh_four_neighbor_average direction v edges_of_vert.
Proof.
  intros M direction v edges.
  unfold SCULPT_trimesh_four_neighbor_average, SCULPT_bmesh_four_neighbor_average.
  rewrite four_neighbor_loops_agree. reflexivity.
Qed.

Lemma float_gt_spec (a b : float) : float_gt a b = true <-> b < a.
Proof. unfold float_gt. apply float_lt_spec. Qed.

(** After the volume correction the offset from the vertex has no
    component along a unit normal. *)
Lemma four_neighbor_finish_tangent (co no avg_co : vec3) (tot_co : float) :
  dot_v3v3 no no == 1 ->
  four_neighbor_finish co no avg_co tot_co = zero_v3 \/
  dot_v3v3 (sub_v3_v3v3 (four_neighbor_finish co no avg_co tot_co) co) no == 0.
Proof.
  intros Hunit. unfold four_neighbor_finish.
  destruct (float_gt tot_co 0); [right | left; reflexivity].
  set (avg := mul_v3_v3fl avg_co (1 / tot_co)).
  set (a := sub_v3_v3 avg co).
  set (d := dot_v3v3 a no).
  assert (Hexp : dot_v3v3
                   (sub_v3_v3v3 (add_v3_v3 (sub_v3_v3 a (mul_v3_v3fl no d)) co) co) no
                 == d * (1 - dot_v3v3 no no)).
  { subst d. unfold dot_v3v3, sub_v3_v3v3, add_v3_v3, sub_v3_v3, mul_v3_v3fl.
    cbn [v3_x v3_y v3_z]. ring. }
  rewrite Hexp, Hunit. ring.
Qed.

(** X6.  With a unit vertex normal, the four-neighbour average (bmesh and
    trimesh) either is the zero vector of the no-weight case or differs
    from the vertex position only within the tangent plane: the offset has
    no component along the normal. *)
Theorem four_neighbor_average_tangent :
  forall (M : MathLib) (direction : vec3),
    (forall (v : BMVert) (edges_of_vert : list BMEdge),
        dot_v3v3 (bmv_no v) (bmv_no v) == 1 ->
        let r := SCULPT_bmesh_four_neighbor_average direction v edges_of_vert in
        r = zero_v3 \/ dot_v3v3 (sub_v3_v3v3 r (bmv_co v)) (bmv_no v) == 0) /\
    (forall (v : TMVert) (edges : list TMEdge),
        dot_v3v3 (tmv_no v) (tmv_no v) == 1 ->
        let r := SCULPT_trimesh_four_neighbor_average direction v edges in
        r = zero_v3 \/ dot_v3v3 (sub_v3_v3v3 r (tmv_co v)) (tmv_no v) == 0).
Proof.
  intros M direction. split.
  - intros v edges Hunit r. subst r. unfold SCULPT_bmesh_four_neighbor_average.
    destruct (bmesh_four_neighbor_loop direction v edges (zero_v3, 0))
      as [[avg_co tot_co] |].
    + apply four_neighbor_finish_tangent. exact Hunit.
    + right. unfold copy_v3_v3, dot_v3v3, sub_v3_v3v3. cbn [v3_x v3_y v3_z]. ring.
  - intros v edges Hunit r. subst r. unfold SCULPT_trimesh_four_neighbor_average.
    destruct (trimesh_four_neighbor_loop direction v edges (zero_v3, 0))
      as [[avg_co tot_co] |].
    + apply four_neighbor_finish_tangent. exact Hunit.
    + right. unfold copy_v3_v3, dot_v3v3, sub_v3_v3v3. cbn [v3_x v3_y v3_z]. ring.
Qed.

(** The interior edge fan of the demo vertex (1, 2, 3) with normal
    (0, 0, 1): the average is (3/2, 3, 3), at the height of the vertex. *)
Lemma four_neighbor_average_tangent_witness :
  SCULPT_bmesh_four_neighbor_average (math := plain_math) demo_direction
    demo_bmvert demo_bmedges_interior =v= V3 (3 # 2) 3 3 /\
  dot_v3v3
    (sub_v3_v3v3
       (SCULPT_bmesh_four_neighbor_average (math := plain_math) demo_direction
          demo_bmvert demo_bmedges_interior) (bmv_co demo_bmvert))
    (bmv_no demo_bmvert) == 0.
Proof.
  split; [repeat split |].
  destruct (four_neighbor_average_tangent plain_math demo_direction) as [Hbm _].
  destruct (Hbm demo_bmvert demo_bmedges_interior (Qeq_refl 1)) as [Hzero | Hdot].
  - vm_compute in Hzero. discriminate Hzero.
  - exact Hdot.
Defined.

(** ** What the kernels leave alone *)

Lemma same_topology_refl (a : SculptSession) : same_topology a a.
Proof. repeat split. Qed.

Lemma same_topology_trans (a b c : SculptSession) :
  same_topology a b -> same_topology b c -> same_topology a c.
Proof.
  unfold same_topology. intros (H1 & H2 & H3 & H4 & H5 & H6) (K1 & K2 & K3 & K4 & K5 & K6).
  repeat split; congruence.
Qed.

Lemma same_at_refl (a : SculptSession) (w : SculptIdx) : same_at a a w.
Proof. repeat split. Qed.

Lemma same_at_trans (a b c : SculptSession) (w : SculptIdx) :
  same_at a b w -> same_at b c w -> same_at a c w.
Proof.
  unfold same_at. intros (H1 & H2 & H3 & H4) (K1 & K2 & K3 & K4).
  repeat split; congruence.
Qed.

Section FoldFrames.

Variable step : SculptSession -> SculptIdx -> SculptSession.

Lemma fold_same_topology :
  (forall ss v, same_topology (step ss v) ss) ->
  forall (l : list SculptIdx) (ss : SculptSession),
    same_topology (fold_left step l ss) ss.
Proof.
  intros Hstep l. induction l as [| a rest IH]; intros ss; cbn [fold_left].
  - apply same_topology_refl.
  - eapply same_topology_trans; [apply IH | apply Hstep].
Qed.

Lemma fold_same_at (w : SculptIdx) :
  (forall ss v, v <> w -> same_at (step ss v) ss w) ->
  forall (l : list SculptIdx) (ss : SculptSession),
    ~ In w l -> same_at (fold_left step l ss) ss w.
Proof.
  intros Hstep l. induction l as [| a rest IH]; intros ss Hnin; cbn [fold_left].
  - apply same_at_refl.
  - eapply same_at_trans.
    + apply IH. intros Hin. apply Hnin. right. exact Hin.
    + apply Hstep. intros Heq. apply Hnin. left. exact Heq.
Qed.

Lemma fold_field_kept {A : Type} (field : SculptSession -> A) :
  (forall ss v, field (step ss v) = field ss) ->
  forall (l : list SculptIdx) (ss : SculptSession),
    field (fold_left step l ss) = field ss.
Proof.
  intros Hstep l. induction l as [| a rest IH]; intros ss; cbn [fold_left].
  - reflexivity.
  - rewrite IH. apply Hstep.
Qed.

End FoldFrames.

(** Unfold a vertex step and decide its branches. *)
Ltac open_step :=
  repeat match goal with
         | |- context [match ?t ?x with Some _ => _ | None => _ end] =>
             destruct (t x)
         | |- context [if data_smooth_mask ?d then _ else _] =>
             destruct (data_smooth_mask d)
         | |- context [tag_pbvh_update ?s ?v] =>
             unfold tag_pbvh_update; cbn [ss_has_mvert set_co set_mask set_laplacian_disp]
         | |- context [if ss_has_mvert ?s then _ else _] =>
             destruct (ss_has_mvert s)
         end.

Lemma store_other_eq {A : Type} (arr : SculptIdx -> A) (v w : SculptIdx) (x : A) :
  v <> w -> store arr v x w = arr w.
Proof. intros Hne. apply store_other. congruence. Qed.

Section SmoothKernelFrame.

Context {services : SculptServices}.
Variable data : SculptThreadedTaskData.
Variable bstrength : float.
Variable test : vec3 -> option float.

Lemma smooth_step_topology (ss : SculptSession) (v : SculptIdx) :
  same_topology (smooth_brush_vertex data bstrength test ss v) ss.
Proof.
  unfold smooth_brush_vertex. cbn zeta. open_step; repeat split.
Qed.

Lemma smooth_step_same_at (w : SculptIdx) (ss : SculptSession) (v : SculptIdx) :
  v <> w -> same_at (smooth_brush_vertex data bstrength test ss v) ss w.
Proof.
  intros Hne. unfold smooth_brush_vertex. cbn zeta.
  open_step; unfold same_at;
    cbn [set_co set_mask ss_co ss_mask ss_pbvh_update
         cache_surface_smooth_laplacian_disp];
    rewrite ?store_other_eq by exact Hne; repeat split.
Qed.

Lemma smooth_step_keeps_mask (ss : SculptSession) (v : SculptIdx) :
  data_smooth_mask data = false ->
  ss_mask (smooth_brush_vertex data bstrength test ss v) = ss_mask ss.
Proof.
  intros Hmode. unfold smooth_brush_vertex. rewrite Hmode. cbn zeta.
  open_step; reflexivity.
Qed.

End SmoothKernelFrame.

Lemma smooth_task_co_kept {services : SculptServices}
    (data : SculptThreadedTaskData) (n : Z) (ss : SculptSession) :
  data_smooth_mask data = true ->
  ss_co (do_smooth_brush_task_cb_ex data n ss) = ss_co ss.
Proof.
  intros Hmode. unfold do_smooth_brush_task_cb_ex. cbn zeta.
  apply mask_fold_co. exact Hmode.
Qed.

Lemma smooth_task_mask_kept {services : SculptServices}
    (data : SculptThreadedTaskData) (n : Z) (ss : SculptSession) :
  data_smooth_mask data = false ->
  ss_mask (do_smooth_brush_task_cb_ex data n ss) = ss_mask ss.
Proof.
  intros Hmode. unfold do_smooth_brush_task_cb_ex. cbn zeta.
  apply (fold_field_kept _ ss_mask).
  intros s v. apply smooth_step_keeps_mask. exact Hmode.
Qed.

(** X7.  A node task of the smoothing kernel keeps topology, boundary
    flags and original positions, and writes only vertices of its own
    node: every other vertex keeps its position, mask and update tag.  In
    position mode it changes no mask at all, in mask mode no position. *)
Theorem smooth_task_frame :
  forall (S : SculptServices) (data : SculptThreadedTaskData) (n : Z)
         (ss : SculptSession),
    let ss' := do_smooth_brush_task_cb_ex data n ss in
    same_topology ss' ss /\
    (forall w : SculptIdx,
        ~ In w (nth (Z.to_nat n) (data_nodes data) []) -> same_at ss' ss w) /\
    (data_smooth_mask data = false -> ss_mask ss' = ss_mask ss) /\
    (data_smooth_mask data = true -> ss_co ss' = ss_co ss).
Proof.
  intros S data n ss ss'. subst ss'. unfold do_smooth_brush_task_cb_ex. cbn zeta.
  split; [| split; [| split]].
  - apply fold_same_topology. intros s v. apply smooth_step_topology.
  - intros w Hnin. apply fold_same_at; [| exact Hnin].
    intros s v Hne. apply smooth_step_same_at. exact Hne.
  - intros Hmode. apply (fold_field_kept _ ss_mask).
    intros s v. apply smooth_step_keeps_mask. exact Hmode.
  - intros Hmode. apply mask_fold_co. exact Hmode.
Qed.

(** Node 0 of the demo mesh holds the vertices 0, 1, 2: vertex 3 is not
    written, and at full strength in position mode vertex 2 (two or fewer
    neighbours) is left where it is while the masks stay. *)
Lemma smooth_task_frame_witness :
  same_at
    (do_smooth_brush_task_cb_ex (services := full_brush_services)
       demo_surface_data_nodes 0 demo_session) demo_session 3%Z /\
  ss_mask
    (do_smooth_brush_task_cb_ex (services := full_brush_services)
       demo_surface_data_nodes 0 demo_session) = ss_mask demo_session /\
  ss_co
    (do_smooth_brush_task_cb_ex (services := full_brush_services)
       demo_mask_data 0 demo_session) = ss_co demo_session.
Proof.
  destruct (smooth_task_frame full_brush_services demo_surface_data_nodes 0 demo_session)
    as (_ & Hout & Hmask & _).
  destruct (smooth_task_frame full_brush_services demo_mask_data 0 demo_session)
    as (_ & _ & _ & Hco).
  split; [| split].
  - apply Hout. cbn. intros [H | [H | [H | []]]]; discriminate H.
  - apply Hmask. reflexivity.
  - apply Hco. reflexivity.
Defined.

(** ** The orchestrator: number of passes, saturation, mode separation *)





Lemma range_field_kept {A : Type} (field : SculptSession -> A)
    (func : Z -> SculptSession -> SculptSession) (start stop : Z) :
  (forall n ss, field (func n ss) = field ss) ->
  forall ss : SculptSession,
    field (BLI_task_parallel_range start stop func ss) = field ss.
Proof.
  intros Hfunc. unfold BLI_task_parallel_range.
  generalize (map (fun i : nat => (start + Z.of_nat i)%Z)
                (seq 0 (Z.to_nat (stop - start)))).
  intros ns. induction ns as [| n rest IH]; intros ss; cbn [fold_left].
  - reflexivity.
  - rewrite IH. apply Hfunc.
Qed.

Lemma fold_iterations_field_kept {A B : Type} (field : SculptSession -> A)
    (body : SculptSession -> B -> SculptSession) (l : list B) :
  (forall ss x, field (body ss x) = field ss) ->
  forall ss : SculptSession, field (fold_left body l ss) = field ss.
Proof.
  intros Hbody. induction l as [| x rest IH]; intros ss; cbn [fold_left].
  - reflexivity.
  - rewrite IH. apply Hbody.
Qed.

(** X9.  [SCULPT_smooth] in mask mode moves no vertex and in position mode
    changes no mask, provided the two [ensure] functions of [sculpt.c]
    keep positions, respectively masks. *)
Theorem SCULPT_smooth_mode_separation :
  forall (S : SculptServices) (sd : Sculpt) (ss : SculptSession)
         (nodes : list PBVHNode) (totnode : Z) (s : float),
    ((forall ss, ss_co (SCULPT_vertex_random_access_ensure ss) = ss_co ss) ->
     (forall ss, ss_co (SCULPT_boundary_info_ensure ss) = ss_co ss) ->
     ss_co (smooth_session (SCULPT_smooth sd ss nodes totnode s true)) = ss_co ss) /\
    ((forall ss, ss_mask (SCULPT_vertex_random_access_ensure ss) = ss_mask ss) ->
     (forall ss, ss_mask (SCULPT_boundary_info_ensure ss) = ss_mask ss) ->
     ss_mask (smooth_session (SCULPT_smooth sd ss nodes totnode s false)) = ss_mask ss).
Proof.
  intros S sd ss nodes totnode s. split; intros Hra Hbi; unfold SCULPT_smooth; cbn zeta;
    (destruct (PBVHType_eqb (ss_pbvh_type ss) PBVH_FACES && negb (ss_pmap ss));
     cbn [smooth_session]; [reflexivity |]).
  - rewrite fold_iterations_field_kept.
    + rewrite Hbi. destruct (negb _); [apply Hra | reflexivity].
    + intros s0 it. apply range_field_kept. intros n s1.
      apply (smooth_task_co_kept). reflexivity.
  - rewrite fold_iterations_field_kept.
    + rewrite Hbi. destruct (negb _); [apply Hra | reflexivity].
    + intros s0 it. apply range_field_kept. intros n s1.
      apply (smooth_task_mask_kept). reflexivity.
Qed.

(** Mask smoothing and position smoothing of the demo mesh at strength
    3/4. *)
Lemma SCULPT_smooth_mode_separation_witness :
  ss_co (smooth_session
           (SCULPT_smooth (services := strong_brush_services) demo_sculpt
              demo_session demo_nodes 2 (3 # 4) true)) = ss_co demo_session /\
  ss_mask (smooth_session
             (SCULPT_smooth (services := strong_brush_services) demo_sculpt
                demo_session demo_nodes 2 (3 # 4) false)) = ss_mask demo_session.
Proof.
  destruct (SCULPT_smooth_mode_separation strong_brush_services demo_sculpt
              demo_session demo_nodes 2 (3 # 4)) as [Hco Hmask].
  split; [apply Hco | apply Hmask]; reflexivity.
Defined.

(** ** Surface smoothing: how far a pass moves a vertex *)

Lemma clamp_f_high (a : float) : 1 <= a -> clamp_f a 0 1 == 1.
Proof.
  intros Ha. unfold clamp_f, float_gt.
  destruct (float_lt 1 a) eqn:H1; [reflexivity |].
  apply float_lt_false in H1.
  replace (float_lt a 0) with false by (symmetry; apply float_lt_false; lra).
  lra.
Qed.

Lemma clamp_f_low (a : float) : a <= 0 -> clamp_f a 0 1 == 0.
Proof.
  intros Ha. unfold clamp_f, float_gt.
  replace (float_lt 1 a) with false by (symmetry; apply float_lt_false; lra).
  destruct (float_lt a 0) eqn:H0; [reflexivity |].
  apply float_lt_false in H0. lra.
Qed.

(** X10.  The predict pass of surface smoothing moves a vertex that passes
    the brush test along the segment from its position to its neighbour
    average, whatever the shape-preservation coefficient: the new position
    is [(1 - t) co + t avg] with [t] the falloff strength clamped to
    [[0, 1]]; at a falloff strength of 1 or more it lands on the average,
    at 0 or less it stays. *)
Theorem surface_smooth_predict_between :
  forall (S : SculptServices) (brush : Brush) (bstrength alpha : float)
         (sculpt_brush_test_sq_fn : vec3 -> option float)
         (ss : SculptSession) (v : SculptIdx) (test_dist : float),
    sculpt_brush_test_sq_fn (ss_co ss v) = Some test_dist ->
    let avg := SCULPT_neighbor_coords_average ss v in
    let fade :=
      bstrength *
      SCULPT_brush_strength_factor ss brush (ss_co ss v) test_dist
        (ss_no ss v) (ss_fno ss v)
        (if ss_has_mask ss then ss_mask ss v else 0) v in
    let t := clamp_f fade 0 1 in
    let ss' :=
      surface_smooth_laplacian_vertex brush bstrength alpha
        sculpt_brush_test_sq_fn ss v in
    0 <= t <= 1 /\
    ss_co ss' v =v= vplus (vscale (1 - t) (ss_co ss v)) (vscale t avg) /\
    (1 <= fade -> ss_co ss' v =v= avg) /\
    (fade <= 0 -> ss_co ss' v =v= ss_co ss v).
Proof.
  intros S brush bstrength alpha test ss v test_dist Htest avg fade t ss'.
  assert (Hco : ss_co ss' v
                = madd_v3_v3fl (ss_co ss v) (sub_v3_v3v3 avg (ss_co ss v)) t).
  { subst ss'. unfold surface_smooth_laplacian_vertex. rewrite Htest.
    unfold SCULPT_surface_smooth_laplacian_step. cbn zeta.
    rewrite tag_pbvh_update_co. cbn [set_co set_laplacian_disp ss_co].
    rewrite store_same. reflexivity. }
  rewrite Hco. split; [apply clamp_f_range |]. split; [| split].
  - solve_veq.
  - intros Hfade. pose proof (clamp_f_high fade Hfade) as Ht. fold t in Ht.
    unfold veq. cbn. rewrite !Ht. repeat split; ring.
  - intros Hfade. pose proof (clamp_f_low fade Hfade) as Ht. fold t in Ht.
    unfold veq. cbn. rewrite !Ht. repeat split; ring.
Qed.

(** Vertex 0 of the demo mesh under the brush of factor 3: the falloff
    strength 3 is clamped and the vertex lands on (1, 1, 1). *)
Lemma surface_smooth_predict_between_witness :
  ss_co (surface_smooth_laplacian_vertex (services := strong_brush_services)
           demo_brush 1 (1 # 3) (fun _ => Some 0) demo_session 0%Z) 0%Z
    =v= SCULPT_neighbor_coords_average demo_session 0%Z.
Proof.
  destruct (surface_smooth_predict_between strong_brush_services demo_brush 1 (1 # 3)
              (fun _ => Some 0) demo_session 0%Z 0 eq_refl) as (_ & _ & Hhigh & _).
  apply Hhigh. cbn. lra.
Defined.

Lemma vsum_all_zero (l : list vec3) :
  (forall x, In x l -> x =v= zero_v3) -> vsum l =v= zero_v3.
Proof.
  induction l as [| x l IH]; intros Hall.
  - apply veq_refl.
  - cbn [vsum fold_right]. fold (vsum l).
    destruct (Hall x (or_introl eq_refl)) as (Hx & Hy & Hz).
    destruct IH as (Sx & Sy & Sz).
    { intros y Hy'. apply Hall. right. exact Hy'. }
    unfold veq. cbn. cbn in Hx, Hy, Hz, Sx, Sy, Sz.
    rewrite Hx, Hy, Hz, Sx, Sy, Sz. repeat split; reflexivity.
Qed.

(** X11.  The damping step of surface smoothing returns the position it
    was given when the vertex has no neighbour, and a position equal to it
    when the falloff strength is 0 or less or when the Laplacian
    displacement is zero at the vertex and at all its neighbours. *)
Theorem surface_smooth_displace_identity :
  forall (ss : SculptSession) (co : vec3) (laplacian_disp : SculptIdx -> vec3)
         (v_index : SculptIdx) (beta fade : float),
    (ss_neighbors ss v_index = [] ->
     SCULPT_surface_smooth_displace_step ss co laplacian_disp v_index beta fade = co) /\
    (fade <= 0 ->
     SCULPT_surface_smooth_displace_step ss co laplacian_disp v_index beta fade =v= co) /\
    (laplacian_disp v_index =v= zero_v3 ->
     (forall n, In n (ss_neighbors ss v_index) -> laplacian_disp n =v= zero_v3) ->
     SCULPT_surface_smooth_displace_step ss co laplacian_disp v_index beta fade =v= co).
Proof.
  intros ss co ld v beta fade. split; [| split].
  - intros Hnil. unfold SCULPT_surface_smooth_displace_step. rewrite Hnil. reflexivity.
  - intros Hfade. unfold SCULPT_surface_smooth_displace_step.
    destruct (neighbor_accumulate add_v3_v3 ld (ss_neighbors ss v) (zero_v3, 0%Z))
      as [b_avg total].
    destruct (total >? 0)%Z; [| apply veq_refl].
    pose proof (clamp_f_low fade Hfade) as Ht.
    unfold veq. cbn. rewrite !Ht. repeat split; ring.
  - intros Hown Hnbrs. unfold SCULPT_surface_smooth_displace_step.
    pose proof (neighbor_accumulate_v3_sum ld (ss_neighbors ss v) zero_v3 0%Z)
      as (Hx & Hy & Hz).
    destruct (neighbor_accumulate add_v3_v3 ld (ss_neighbors ss v) (zero_v3, 0%Z))
      as [b_avg total].
    destruct (total >? 0)%Z; [| apply veq_refl].
    destruct (vsum_all_zero (map ld (ss_neighbors ss v))) as (Sx & Sy & Sz).
    { intros x Hin. apply in_map_iff in Hin. destruct Hin as [n [Heq Hin]].
      rewrite <- Heq. apply Hnbrs. exact Hin. }
    destruct Hown as (Ox & Oy & Oz).
    cbn [fst] in Hx, Hy, Hz. cbn in Hx, Hy, Hz, Sx, Sy, Sz, Ox, Oy, Oz.
    rewrite Sx in Hx. rewrite Sy in Hy. rewrite Sz in Hz.
    unfold veq. cbn. rewrite Hx, Hy, Hz, Ox, Oy, Oz. repeat split; ring.
Qed.

(** The isolated vertex 4 of the demo mesh; vertex 0 at falloff strength
    -1; vertex 2 over a displacement buffer that is zero everywhere. *)
Lemma surface_smooth_displace_identity_witness :
  SCULPT_surface_smooth_displace_step demo_session (V3 1 2 3)
    (cache_surface_smooth_laplacian_disp demo_session) 4%Z (1 # 2) 1 = V3 1 2 3 /\
  SCULPT_surface_smooth_displace_step demo_session (V3 0 0 0)
    (cache_surface_smooth_laplacian_disp demo_session) 0%Z (1 # 2) (- (1))
    =v= V3 0 0 0 /\
  SCULPT_surface_smooth_displace_step demo_session (V3 0 3 0)
    (fun _ => zero_v3) 2%Z (1 # 2) 1 =v= V3 0 3 0.
Proof.
  split; [| split].
  - apply (proj1 (surface_smooth_displace_identity demo_session (V3 1 2 3)
                    (cache_surface_smooth_laplacian_disp demo_session) 4%Z (1 # 2) 1)).
    reflexivity.
  - apply (proj1 (proj2 (surface_smooth_displace_identity demo_session (V3 0 0 0)
                    (cache_surface_smooth_laplacian_disp demo_session) 0%Z
                    (1 # 2) (- (1))))).
    lra.
  - apply (proj2 (proj2 (surface_smooth_displace_identity demo_session (V3 0 3 0)
                    (fun _ => zero_v3) 2%Z (1 # 2) 1))).
    + apply veq_refl.
    + intros n _. apply veq_refl.
Defined.

(** ** The surface smoothing brush as a whole *)

Section SurfaceKernelFrame.

Context {services : SculptServices}.
Variable brush : Brush.
Variables bstrength coefficient : float.
Variable test : vec3 -> option float.

Lemma laplacian_step_topology (ss : SculptSession) (v : SculptIdx) :
  same_topology (surface_smooth_laplacian_vertex brush bstrength coefficient test ss v) ss.
Proof.
  unfold surface_smooth_laplacian_vertex, SCULPT_surface_smooth_laplacian_step.
  cbn zeta. open_step; repeat split.
Qed.

Lemma laplacian_step_same_at (w : SculptIdx) (ss : SculptSession) (v : SculptIdx) :
  v <> w ->
  same_at (surface_smooth_laplacian_vertex brush bstrength coefficient test ss v) ss w.
Proof.
  intros Hne.
  unfold surface_smooth_laplacian_vertex, SCULPT_surface_smooth_laplacian_step.
  cbn zeta. open_step; unfold same_at;
    cbn [set_co set_laplacian_disp ss_co ss_mask ss_pbvh_update
         cache_surface_smooth_laplacian_disp];
    rewrite ?store_other_eq by exact Hne; repeat split.
Qed.

Lemma laplacian_step_mask (ss : SculptSession) (v : SculptIdx) :
  ss_mask (surface_smooth_laplacian_vertex brush bstrength coefficient test ss v)
  = ss_mask ss.
Proof.
  unfold surface_smooth_laplacian_vertex, SCULPT_surface_smooth_laplacian_step.
  cbn zeta. open_step; reflexivity.
Qed.

Lemma displace_step_topology (ss : SculptSession) (v : SculptIdx) :
  same_topology (surface_smooth_displace_vertex brush bstrength coefficient test ss v) ss.
Proof.
  unfold surface_smooth_displace_vertex. cbn zeta. open_step; repeat split.
Qed.

Lemma displace_step_same_at (w : SculptIdx) (ss : SculptSession) (v : SculptIdx) :
  v <> w ->
  same_at (surface_smooth_displace_vertex brush bstrength coefficient test ss v) ss w.
Proof.
  intros Hne. unfold surface_smooth_displace_vertex. cbn zeta.
  open_step; unfold same_at;
    cbn [set_co ss_co ss_mask ss_pbvh_update cache_surface_smooth_laplacian_disp];
    rewrite ?store_other_eq by exact Hne; repeat split.
Qed.

Lemma displace_step_mask (ss : SculptSession) (v : SculptIdx) :
  ss_mask (surface_smooth_displace_vertex brush bstrength coefficient test ss v)
  = ss_mask ss.
Proof.
  unfold surface_smooth_displace_vertex. cbn zeta. open_step; reflexivity.
Qed.

End SurfaceKernelFrame.

Lemma node_of_nodes_avoids (nodes : list PBVHNode) (w : SculptIdx) (n : Z) :
  (forall node, In node nodes -> ~ In w node) ->
  ~ In w (nth (Z.to_nat n) nodes []).
Proof.
  intros Hout. destruct (nth_in_or_default (Z.to_nat n) nodes []) as [Hin | Hdef].
  - apply Hout. exact Hin.
  - rewrite Hdef. intros [].
Qed.

Lemma range_invariant (P : SculptSession -> SculptSession -> Prop)
    (func : Z -> SculptSession -> SculptSession) (start stop : Z) :
  (forall a, P a a) ->
  (forall a b c, P a b -> P b c -> P a c) ->
  (forall n ss, P (func n ss) ss) ->
  forall ss : SculptSession, P (BLI_task_parallel_range start stop func ss) ss.
Proof.
  intros Hrefl Htrans Hfunc. unfold BLI_task_parallel_range.
  generalize (map (fun i : nat => (start + Z.of_nat i)%Z)
                (seq 0 (Z.to_nat (stop - start)))).
  intros ns. induction ns as [| n rest IH]; intros ss; cbn [fold_left].
  - apply Hrefl.
  - eapply Htrans; [apply IH | apply Hfunc].
Qed.

Lemma iterations_invariant {B : Type} (P : SculptSession -> SculptSession -> Prop)
    (body : SculptSession -> B -> SculptSession) (l : list B) :
  (forall a, P a a) ->
  (forall a b c, P a b -> P b c -> P a c) ->
  (forall ss x, P (body ss x) ss) ->
  forall ss : SculptSession, P (fold_left body l ss) ss.
Proof.
  intros Hrefl Htrans Hbody. induction l as [| x rest IH]; intros ss; cbn [fold_left].
  - apply Hrefl.
  - eapply Htrans; [apply IH | apply Hbody].
Qed.

Section SurfaceTaskFrame.

Context {services : SculptServices}.
Variable data : SculptThreadedTaskData.

Lemma laplacian_task_frame (n : Z) (ss : SculptSession) :
  let ss' := SCULPT_do_surface_smooth_brush_laplacian_task_cb_ex data n ss in
  same_topology ss' ss /\ ss_mask ss' = ss_mask ss /\
  (forall w, ~ In w (nth (Z.to_nat n) (data_nodes data) []) -> same_at ss' ss w).
Proof.
  unfold SCULPT_do_surface_smooth_brush_laplacian_task_cb_ex. cbn zeta.
  split; [| split].
  - apply fold_same_topology. intros s v. apply laplacian_step_topology.
  - apply (fold_field_kept _ ss_mask). intros s v. apply laplacian_step_mask.
  - intros w Hnin. apply fold_same_at; [| exact Hnin].
    intros s v Hne. apply laplacian_step_same_at. exact Hne.
Qed.

Lemma displace_task_frame (n : Z) (ss : SculptSession) :
  let ss' := SCULPT_do_surface_smooth_brush_displace_task_cb_ex data n ss in
  same_topology ss' ss /\ ss_mask ss' = ss_mask ss /\
  (forall w, ~ In w (nth (Z.to_nat n) (data_nodes data) []) -> same_at ss' ss w).
Proof.
  unfold SCULPT_do_surface_smooth_brush_displace_task_cb_ex. cbn zeta.
  split; [| split].
  - apply fold_same_topology. intros s v. apply displace_step_topology.
  - apply (fold_field_kept _ ss_mask). intros s v. apply displace_step_mask.
  - intros w Hnin. apply fold_same_at; [| exact Hnin].
    intros s v Hne. apply displace_step_same_at. exact Hne.
Qed.

End SurfaceTaskFrame.

(** X12.  The surface smoothing brush keeps topology, boundary flags,
    original positions and stroke strength, changes no mask, and moves no
    vertex outside the nodes it is given; with an iteration count of 0 or
    less it moves no vertex at all. *)
Theorem surface_smooth_brush_frame :
  forall (S : SculptServices) (Q : StrokeQueries) (sd : Sculpt) (ss : SculptSession)
         (nodes : list PBVHNode) (totnode : Z),
    let ss' := SCULPT_do_surface_smooth_brush sd ss nodes totnode in
    same_topology ss' ss /\
    ss_mask ss' = ss_mask ss /\
    (forall w : SculptIdx,
        (forall node, In node nodes -> ~ In w node) -> ss_co ss' w = ss_co ss w) /\
    ((surface_smooth_iterations (BKE_paint_brush sd) <= 0)%Z -> ss_co ss' = ss_co ss).
Proof.
  intros S Q sd ss nodes totnode ss'. subst ss'.
  unfold SCULPT_do_surface_smooth_brush. cbn zeta.
  set (ss0 := if SCULPT_stroke_is_first_brush_step ss
              then set_laplacian_disp ss (fun _ => zero_v3) else ss).
  assert (H0 : same_topology ss0 ss /\ ss_mask ss0 = ss_mask ss /\ ss_co ss0 = ss_co ss).
  { subst ss0. destruct (SCULPT_stroke_is_first_brush_step ss); repeat split. }
  destruct H0 as (Htop0 & Hmask0 & Hco0).
  set (data := brush_task_data sd (BKE_paint_brush sd) nodes).
  split; [| split; [| split]].
  - eapply same_topology_trans; [| exact Htop0].
    apply (iterations_invariant same_topology);
      [apply same_topology_refl | apply same_topology_trans |].
    intros s _. eapply same_topology_trans.
    + apply (range_invariant same_topology);
        [apply same_topology_refl | apply same_topology_trans |].
      intros n s1. apply (displace_task_frame data n s1).
    + apply (range_invariant same_topology);
        [apply same_topology_refl | apply same_topology_trans |].
      intros n s1. apply (laplacian_task_frame data n s1).
  - rewrite <- Hmask0. apply fold_iterations_field_kept. intros s _.
    rewrite range_field_kept.
    + apply range_field_kept. intros n s1. apply (laplacian_task_frame data n s1).
    + intros n s1. apply (displace_task_frame data n s1).
  - intros w Hout. rewrite <- Hco0.
    apply (iterations_invariant (fun a b => ss_co a w = ss_co b w));
      [reflexivity | intros; congruence |].
    intros s _. etransitivity.
    + apply (range_invariant (fun a b => ss_co a w = ss_co b w));
        [reflexivity | intros; congruence |].
      intros n s1. apply (displace_task_frame data n s1).
      apply node_of_nodes_avoids. exact Hout.
    + apply (range_invariant (fun a b => ss_co a w = ss_co b w));
        [reflexivity | intros; congruence |].
      intros n s1. apply (laplacian_task_frame data n s1).
      apply node_of_nodes_avoids. exact Hout.
  - intros Hiter. rewrite <- Hco0. unfold int_range.
    replace (Z.to_nat (surface_smooth_iterations (BKE_paint_brush sd) - 0)) with 0%nat
      by lia.
    reflexivity.
Qed.

(** One iteration of the brush over node [[0]] of the demo mesh: vertex 3
    is outside the node; a brush with the iteration count 0 moves
    nothing. *)
Lemma surface_smooth_brush_frame_witness :
  ss_co (SCULPT_do_surface_smooth_brush (services := full_brush_services)
           (stroke := first_step_queries) demo_sculpt demo_session
           demo_single_node 1) 3%Z = V3 0 0 3 /\
  ss_co (SCULPT_do_surface_smooth_brush (services := full_brush_services)
           (stroke := first_step_queries) demo_idle_sculpt demo_session
           demo_nodes 2) = ss_co demo_session.
Proof.
  split.
  - destruct (surface_smooth_brush_frame full_brush_services first_step_queries
                demo_sculpt demo_session demo_single_node 1) as (_ & _ & Hout & _).
    apply Hout. intros node [<- | []] [H | []]. discriminate H.
  - destruct (surface_smooth_brush_frame full_brush_services first_step_queries
                demo_idle_sculpt demo_session demo_nodes 2) as (_ & _ & _ & Hidle).
    apply Hidle. cbn. lia.
Defined.

(** ** Detail enhancement *)

Lemma in_int_range (start stop i : Z) :
  In i (int_range start stop) <-> (start <= i < stop)%Z.
Proof.
  unfold int_range. rewrite in_map_iff. split.
  - intros [k [Hk Hin]]. apply in_seq in Hin. lia.
  - intros Hi. exists (Z.to_nat (i - start)). split; [lia |].
    apply in_seq. lia.
Qed.

Lemma fold_store_stable {A : Type} (g : SculptIdx -> A) (l : list SculptIdx) :
  forall (buf : SculptIdx -> A) (i : SculptIdx),
    buf i = g i ->
    fold_left (fun b j => store b j (g j)) l buf i = g i.
Proof.
  induction l as [| a rest IH]; intros buf i Hi; cbn [fold_left].
  - exact Hi.
  - apply IH. unfold store. destruct (i =? a)%Z eqn:Hia; [| exact Hi].
    apply Z.eqb_eq in Hia. subst a. reflexivity.
Qed.

Lemma fold_store_written {A : Type} (g : SculptIdx -> A) (l : list SculptIdx) :
  forall (buf : SculptIdx -> A) (i : SculptIdx),
    In i l ->
    fold_left (fun b j => store b j (g j)) l buf i = g i.
Proof.
  induction l as [| a rest IH]; intros buf i Hin; cbn [fold_left].
  - destruct Hin.
  - destruct (Z.eq_dec a i) as [-> | Hne].
    + apply fold_store_stable. apply store_same.
    + destruct Hin as [Heq | Hin]; [congruence |]. apply IH. exact Hin.
Qed.

Lemma fold_store_untouched {A : Type} (g : SculptIdx -> A) (l : list SculptIdx) :
  forall (buf : SculptIdx -> A) (i : SculptIdx),
    ~ In i l ->
    fold_left (fun b j => store b j (g j)) l buf i = buf i.
Proof.
  induction l as [| a rest IH]; intros buf i Hnin; cbn [fold_left].
  - reflexivity.
  - rewrite IH by (intros H; apply Hnin; right; exact H).
    apply store_other. intros ->. apply Hnin. left. reflexivity.
Qed.

Section EnhanceKernelFrame.

Context {services : SculptServices}.
Variable data : SculptThreadedTaskData.

Lemma enhance_step_directions (bstrength : float) (test : vec3 -> option float)
    (ss : SculptSession) (v : SculptIdx) :
  cache_detail_directions (enhance_details_vertex data bstrength test ss v)
  = cache_detail_directions ss.
Proof.
  unfold enhance_details_vertex. cbn zeta. open_step; reflexivity.
Qed.

Lemma enhance_task_directions (n : Z) (ss : SculptSession) :
  cache_detail_directions (do_enhance_details_brush_task_cb_ex data n ss)
  = cache_detail_directions ss.
Proof.
  unfold do_enhance_details_brush_task_cb_ex. cbn zeta.
  apply (fold_field_kept _ cache_detail_directions).
  intros s v. apply enhance_step_directions.
Qed.

End EnhanceKernelFrame.

(** X13.  On the first step of a stroke the detail enhancement brush
    records, for every vertex index below the vertex count, the offset of
    the vertex to its neighbour average as its detail direction (the zero
    offset for a vertex without neighbours) and leaves the other entries
    as they are; on a later step it keeps the recorded directions.  The
    session meant is the one left by the two [ensure] calls. *)
Theorem enhance_details_directions :
  forall (S : SculptServices) (Q : StrokeQueries) (sd : Sculpt) (ss : SculptSession)
         (nodes : list PBVHNode) (totnode : Z),
    let ss2 := SCULPT_boundary_info_ensure (SCULPT_vertex_random_access_ensure ss) in
    let ss' := SCULPT_enhance_details_brush sd ss nodes totnode in
    (SCULPT_stroke_is_first_brush_step ss2 = true ->
     forall i : SculptIdx,
       ((0 <= i < SCULPT_vertex_count_get ss2)%Z ->
        cache_detail_directions ss' i =
          sub_v3_v3v3 (SCULPT_neighbor_coords_average ss2 i) (ss_co ss2 i) /\
        (ss_neighbors ss2 i = [] -> cache_detail_directions ss' i =v= zero_v3)) /\
       (~ (0 <= i < SCULPT_vertex_count_get ss2)%Z ->
        cache_detail_directions ss' i = cache_detail_directions ss2 i)) /\
    (SCULPT_stroke_is_first_brush_step ss2 = false ->
     cache_detail_directions ss' = cache_detail_directions ss2).
Proof.
  intros S Q sd ss nodes totnode ss2 ss'. subst ss'.
  unfold SCULPT_enhance_details_brush. cbn zeta. fold ss2.
  rewrite range_field_kept by (intros n s1; apply enhance_task_directions).
  split.
  - intros Hfirst i. rewrite Hfirst. cbn [set_detail_directions cache_detail_directions].
    unfold compute_detail_directions. split.
    + intros Hi.
      assert (Hdir : fold_left
                (fun detail_directions i0 =>
                   store detail_directions i0
                     (sub_v3_v3v3 (SCULPT_neighbor_coords_average ss2 i0)
                        (SCULPT_vertex_co_get ss2 i0)))
                (int_range 0 (SCULPT_vertex_count_get ss2))
                (cache_detail_directions ss2) i
              = sub_v3_v3v3 (SCULPT_neighbor_coords_average ss2 i) (ss_co ss2 i)).
      { apply (fold_store_written
                 (fun j => sub_v3_v3v3 (SCULPT_neighbor_coords_average ss2 j)
                             (SCULPT_vertex_co_get ss2 j))).
        apply in_int_range. exact Hi. }
      split; [exact Hdir |].
      intros Hnil. rewrite Hdir. unfold SCULPT_neighbor_coords_average.
      rewrite Hnil. unfold veq, copy_v3_v3, SCULPT_vertex_co_get. cbn.
      split; [| split]; ring.
    + intros Hi.
      apply (fold_store_untouched
               (fun j => sub_v3_v3v3 (SCULPT_neighbor_coords_average ss2 j)
                           (SCULPT_vertex_co_get ss2 j))).
      rewrite in_int_range. exact Hi.
  - intros Hlater. rewrite Hlater. reflexivity.
Qed.

(** First step over the demo mesh (six vertices): vertex 0 gets the offset
    to (1, 1, 1), the isolated vertex 4 a zero offset, index 9 keeps its
    entry. *)
Lemma enhance_details_directions_witness :
  cache_detail_directions
    (SCULPT_enhance_details_brush (services := full_brush_services)
       (stroke := first_step_queries) demo_sculpt demo_session demo_nodes 2) 0%Z
    =v= V3 1 1 1 /\
  cache_detail_directions
    (SCULPT_enhance_details_brush (services := full_brush_services)
       (stroke := first_step_queries) demo_sculpt demo_session demo_nodes 2) 4%Z
    =v= zero_v3 /\
  cache_detail_directions
    (SCULPT_enhance_details_brush (services := full_brush_services)
       (stroke := first_step_queries) demo_sculpt demo_session demo_nodes 2) 9%Z
    = V3 0 0 0.
Proof.
  destruct (enhance_details_directions full_brush_services first_step_queries
              demo_sculpt demo_session demo_nodes 2) as [Hfirst _].
  specialize (Hfirst eq_refl).
  split; [| split].
  - destruct (Hfirst 0%Z) as [Hin _].
    destruct Hin as [Hdir _]; [cbn; lia |].
    rewrite Hdir. repeat split.
  - destruct (Hfirst 4%Z) as [Hin _].
    destruct Hin as [_ Hzero]; [cbn; lia |].
    apply Hzero. reflexivity.
  - destruct (Hfirst 9%Z) as [_ Hout].
    apply Hout. cbn. lia.
Defined.

(** X14.  Sign flip of the smooth brush.  Under a brush without axis lock
    or mirror clipping ([SCULPT_clip] stores its target), for a vertex off
    the boundary with more than two neighbours whose detail direction is
    its current offset to the neighbour average, the detail enhancement
    step at strength [-b] and the smoothing step at strength [b] leave the
    vertex at mirror positions about where it was. *)
Theorem enhance_mirrors_smooth :
  forall (S : SculptServices) (data : SculptThreadedTaskData) (b : float)
         (sculpt_brush_test_sq_fn : vec3 -> option float)
         (ss : SculptSession) (v : SculptIdx),
    (forall sd ss co val, SCULPT_clip sd ss co val = val) ->
    data_smooth_mask data = false ->
    sculpt_brush_test_sq_fn (ss_co ss v) <> None ->
    SCULPT_vertex_is_boundary ss v = false ->
    (2 < List.length (ss_neighbors ss v))%nat ->
    cache_detail_directions ss v =
      sub_v3_v3v3 (SCULPT_neighbor_coords_average ss v) (ss_co ss v) ->
    vplus
      (ss_co (smooth_brush_vertex data b sculpt_brush_test_sq_fn ss v) v)
      (ss_co (enhance_details_vertex data (- b) sculpt_brush_test_sq_fn ss v) v)
    =v= vscale 2 (ss_co ss v).
Proof.
  intros S data b test ss v Hclip Hmode Htest Hb Hlen Hdir.
  unfold smooth_brush_vertex, enhance_details_vertex. rewrite Hmode. cbn zeta.
  destruct (test (ss_co ss v)) as [test_dist |]; [| congruence].
  rewrite !tag_pbvh_update_co. cbn [set_co ss_co]. rewrite !store_same, !Hclip.
  rewrite Hdir, (interior_is_plain ss v Hb Hlen).
  set (F := SCULPT_brush_strength_factor ss (data_brush data) (ss_co ss v) test_dist
              (ss_no ss v) (ss_fno ss v)
              (if ss_has_mask ss then ss_mask ss v else 0) v).
  solve_veq.
Qed.

(** Vertex 0 of the demo mesh without boundary, at strength 1/2: the two
    steps end at (1/2, 1/2, 1/2) and (-1/2, -1/2, -1/2). *)
Lemma enhance_mirrors_smooth_witness :
  ss_co (smooth_brush_vertex (services := full_brush_services)
           demo_surface_data_nodes (1 # 2) (fun _ => Some 0)
           demo_interior_session 0%Z) 0%Z =v= V3 (1 # 2) (1 # 2) (1 # 2) /\
  vplus
    (ss_co (smooth_brush_vertex (services := full_brush_services)
              demo_surface_data_nodes (1 # 2) (fun _ => Some 0)
              demo_interior_session 0%Z) 0%Z)
    (ss_co (enhance_details_vertex (services := full_brush_services)
              demo_surface_data_nodes (- (1 # 2)) (fun _ => Some 0)
              demo_interior_session 0%Z) 0%Z)
  =v= vscale 2 (ss_co demo_interior_session 0%Z).
Proof.
  split; [repeat split |].
  apply (enhance_mirrors_smooth full_brush_services demo_surface_data_nodes (1 # 2)
           (fun _ => Some 0) demo_interior_session 0%Z).
  - reflexivity.
  - reflexivity.
  - discriminate.
  - reflexivity.
  - cbn. lia.
  - reflexivity.
Defined.

(** * Properties of [gpencil_armature.c] *)

(** ** The bone looper *)

Lemma call_in_turn_app {S : Type} (bone_func : S -> BoneData -> Z * S)
    (l1 l2 : list BoneData) (start : Z * S) :
  call_in_turn bone_func (l1 ++ l2) start =
  call_in_turn bone_func l2 (call_in_turn bone_func l1 start).
Proof. unfold call_in_turn. apply fold_left_app. Qed.

Lemma call_in_turn_shift {S : Type} (bone_func : S -> BoneData -> Z * S)
    (l : list BoneData) :
  forall (c : Z) (st : S),
    call_in_turn bone_func l (c, st) =
    ((c + fst (call_in_turn bone_func l (0%Z, st)))%Z,
     snd (call_in_turn bone_func l (0%Z, st))).
Proof.
  induction l as [| b rest IH]; intros c st; unfold call_in_turn; cbn [fold_left fst snd].
  - rewrite Z.add_0_r. reflexivity.
  - destruct (bone_func st b) as [c1 st1].
    fold (call_in_turn bone_func rest ((c + c1)%Z, st1)).
    fold (call_in_turn bone_func rest ((0 + c1)%Z, st1)).
    rewrite (IH (c + c1)%Z st1), (IH (0 + c1)%Z st1). cbn [fst snd].
    f_equal. lia.
Qed.

(** X16.  The bone looper calls the callback exactly once on every bone of
    the forest, in the order bone, bones below it, next siblings, threads
    the state through the calls and returns the sum of the callback's
    answers. *)
Theorem gpencil_bone_looper_preorder :
  forall (S : Type) (bone_func : S -> BoneData -> Z * S) (bone : Bone) (st : S),
    gpencil_bone_looper bone bone_func st =
    call_in_turn bone_func (bone_preorder bone) (0%Z, st).
Proof.
  intros S bone_func bone.
  induction bone as [| b child IHc next IHn]; intros st.
  - reflexivity.
  - cbn [gpencil_bone_looper bone_preorder].
    unfold call_in_turn at 1. cbn [fold_left fst snd].
    destruct (bone_func st b) as [c1 st1].
    fold (call_in_turn bone_func (bone_preorder child ++ bone_preorder next)
            ((0 + c1)%Z, st1)).
    rewrite call_in_turn_app.
    rewrite IHc.
    rewrite (call_in_turn_shift bone_func (bone_preorder child) (0 + c1)%Z st1).
    destruct (call_in_turn bone_func (bone_preorder child) (0%Z, st1)) as [c2 st2].
    cbn [fst snd]. rewrite IHn.
    rewrite (call_in_turn_shift bone_func (bone_preorder next) (0 + c1 + c2)%Z st2).
    destruct (call_in_turn bone_func (bone_preorder next) (0%Z, st2)) as [c3 st3].
    reflexivity.
Qed.

Section SkinnablePasses.

Context {lib : ArmatureLib}.
Variable armob : ArmatureObject.
Variable heat : bool.

Let with_list {A : Type} (l : option (list A)) : LooperData A :=
  {| looper_armob := armob; looper_list := l; looper_heat := heat |}.

Lemma skinnable_segments_nonneg {A : Type} (l : option (list A)) (b : BoneData) :
  (0 <= bone_segments b)%Z -> (0 <= skinnable_segments (with_list l) b)%Z.
Proof.
  intros Hb. unfold skinnable_segments.
  destruct (_ && _ && _); [exact Hb | lia].
Qed.

(** One pass of [bone_skinnable_cb] with a list: it appends as many
    entries as it counts, and counts what the pass without list counts. *)
Lemma bone_skinnable_pass (bone : Bone) :
  all_bones (fun b => (0 <= bone_segments b)%Z) bone ->
  forall l0 : list BoneData,
    gpencil_bone_looper bone bone_skinnable_cb (with_list None) =
      (fst (gpencil_bone_looper bone bone_skinnable_cb (with_list None)),
       with_list None) /\
    (0 <= fst (gpencil_bone_looper bone bone_skinnable_cb (with_list None)))%Z /\
    exists l' : list BoneData,
      gpencil_bone_looper bone bone_skinnable_cb (with_list (Some l0)) =
        (fst (gpencil_bone_looper bone bone_skinnable_cb (with_list None)),
         with_list (Some (l0 ++ l'))) /\
      Z.of_nat (List.length l') =
        fst (gpencil_bone_looper bone bone_skinnable_cb (with_list None)).
Proof.
  induction bone as [| b child IHc next IHn]; intros Hall l0.
  - cbn. split; [reflexivity | split; [lia |]].
    exists []. rewrite app_nil_r. split; reflexivity.
  - destruct Hall as (Hb & Hchild & Hnext).
    specialize (IHc Hchild). specialize (IHn Hnext).
    cbn [gpencil_bone_looper].
    assert (Hcb : exists (c1 : Z) (w : list BoneData),
               (0 <= c1)%Z /\ Z.of_nat (List.length w) = c1 /\
               bone_skinnable_cb (with_list None) b = (c1, with_list None) /\
               bone_skinnable_cb (with_list (Some l0)) b
                 = (c1, with_list (Some (l0 ++ w)))).
    { unfold bone_skinnable_cb.
      destruct (negb (flag_set (bone_flag b) BONE_HIDDEN_P));
        [| exists 0%Z, []; rewrite app_nil_r; repeat split; lia].
      destruct (negb (flag_set (bone_flag b) BONE_NO_DEFORM));
        [| exists 0%Z, []; rewrite app_nil_r; repeat split; lia].
      pose proof (skinnable_segments_nonneg (@None (list BoneData)) b Hb) as Hseg.
      exists (skinnable_segments (with_list (@None (list BoneData))) b),
             (repeat b (Z.to_nat (skinnable_segments
                                    (with_list (@None (list BoneData))) b))).
      split; [exact Hseg |]. split; [rewrite repeat_length; lia |].
      split; reflexivity. }
    destruct Hcb as (c1 & w & Hc1 & Hw & HcbN & HcbS).
    rewrite HcbN, HcbS.
    destruct (IHc (l0 ++ w)) as (HcN & Hc2 & lc & HcS & Hlc).
    rewrite HcN, HcS.
    destruct (IHn ((l0 ++ w) ++ lc)) as (HnN & Hc3 & ln & HnS & Hln).
    rewrite HnN, HnS. cbn [fst snd].
    split; [reflexivity | split; [lia |]].
    exists (w ++ lc ++ ln). split.
    + rewrite !app_assoc. reflexivity.
    + rewrite !length_app. lia.
Qed.

(** The pass of [dgroup_skinnable_cb] counts and appends the same
    number. *)
Lemma dgroup_skinnable_pass (bone : Bone) :
  all_bones (fun b => (0 <= bone_segments b)%Z) bone ->
  forall (ob : GpObject) (l0 : list (option bDeformGroup)),
    exists (ob' : GpObject) (l' : list (option bDeformGroup)),
      gpencil_bone_looper bone dgroup_skinnable_cb (ob, with_list (Some l0)) =
        (fst (gpencil_bone_looper bone bone_skinnable_cb (with_list None)),
         (ob', with_list (Some (l0 ++ l')))) /\
      Z.of_nat (List.length l') =
        fst (gpencil_bone_looper bone bone_skinnable_cb (with_list None)).
Proof.
  induction bone as [| b child IHc next IHn]; intros Hall ob l0.
  - exists ob, []. rewrite app_nil_r. split; reflexivity.
  - destruct Hall as (Hb & Hchild & Hnext).
    specialize (IHc Hchild). specialize (IHn Hnext).
    destruct (bone_skinnable_pass child Hchild []) as (HcN & _ & _).
    destruct (bone_skinnable_pass next Hnext []) as (HnN & _ & _).
    cbn [gpencil_bone_looper].
    assert (Hcb : exists (c1 : Z) (ob1 : GpObject) (w : list (option bDeformGroup)),
               Z.of_nat (List.length w) = c1 /\
               bone_skinnable_cb (with_list None) b = (c1, with_list None) /\
               dgroup_skinnable_cb (ob, with_list (Some l0)) b
                 = (c1, (ob1, with_list (Some (l0 ++ w))))).
    { unfold bone_skinnable_cb, dgroup_skinnable_cb.
      destruct (negb (flag_set (bone_flag b) BONE_HIDDEN_P));
        [| exists 0%Z, ob, []; rewrite app_nil_r; repeat split].
      destruct (negb (flag_set (bone_flag b) BONE_NO_DEFORM));
        [| exists 0%Z, ob, []; rewrite app_nil_r; repeat split].
      pose proof (skinnable_segments_nonneg (@None (list BoneData)) b Hb) as Hseg.
      match goal with
      | |- context [let '(defgroup, ob0) := ?e in _] =>
          destruct e as [defgroup ob1]
      end.
      exists (skinnable_segments (with_list (@None (list BoneData))) b), ob1,
             (repeat defgroup (Z.to_nat (skinnable_segments
                                           (with_list (@None (list BoneData))) b))).
      split; [rewrite repeat_length; lia |].
      split; reflexivity. }
    destruct Hcb as (c1 & ob1 & w & Hw & HcbN & HcbS).
    rewrite HcbN, HcbS, HcN.
    destruct (IHc ob1 (l0 ++ w)) as (ob2 & lc & HcS & Hlc).
    rewrite HcS, HnN.
    destruct (IHn ob2 ((l0 ++ w) ++ lc)) as (ob3 & ln & HnS & Hln).
    rewrite HnS. cbn [fst snd].
    exists ob3, (w ++ lc ++ ln). split.
    + rewrite !app_assoc. reflexivity.
    + rewrite !length_app. lia.
Qed.

End SkinnablePasses.

(** X17.  The three passes of [gpencil_add_verts_to_dgroups] agree: when
    no bone has a negative segment count, the counting pass of
    [bone_skinnable_cb] returns a count [numbones] that is not negative
    and leaves its data alone, the second pass writes exactly [numbones]
    bones into the list and returns [numbones] again, and the pass of
    [dgroup_skinnable_cb] writes exactly [numbones] group entries. *)
Theorem gpencil_skinnable_passes_agree :
  forall (lib : ArmatureLib) (armob : ArmatureObject) (heat : bool) (bone : Bone),
    all_bones (fun b => (0 <= bone_segments b)%Z) bone ->
    let data (A : Type) (l : option (list A)) : LooperData A :=
      {| looper_armob := armob; looper_list := l; looper_heat := heat |} in
    let numbones :=
      fst (gpencil_bone_looper bone bone_skinnable_cb (data BoneData None)) in
    (0 <= numbones)%Z /\
    snd (gpencil_bone_looper bone bone_skinnable_cb (data BoneData None))
      = data BoneData None /\
    (exists bonelist : list BoneData,
        gpencil_bone_looper bone bone_skinnable_cb (data BoneData (Some []))
          = (numbones, data BoneData (Some bonelist)) /\
        Z.of_nat (List.length bonelist) = numbones) /\
    (forall ob : GpObject,
        exists (ob' : GpObject) (dgrouplist : list (option bDeformGroup)),
          gpencil_bone_looper bone dgroup_skinnable_cb
            (ob, data (option bDeformGroup) (Some []))
            = (numbones, (ob', data (option bDeformGroup) (Some dgrouplist))) /\
          Z.of_nat (List.length dgrouplist) = numbones).
Proof.
  intros lib armob heat bone Hall data numbones. subst data numbones. cbn beta.
  destruct (bone_skinnable_pass armob heat bone Hall []) as (HN & Hnn & l' & HS & Hl').
  split; [exact Hnn |]. split; [rewrite HN; reflexivity |]. split.
  - exists l'. split; [exact HS | exact Hl'].
  - intros ob.
    destruct (dgroup_skinnable_pass armob heat bone Hall ob []) as (ob' & l & Hd & Hl).
    exists ob', l. split; [exact Hd | exact Hl].
Qed.

(** The demo armature: "arm" counts its three segments, "hand" one, the
    hidden and the non-deforming bone none. *)
Lemma gpencil_skinnable_passes_agree_witness :
  fst (gpencil_bone_looper demo_bones (bone_skinnable_cb (lib := demo_armature_lib))
         {| looper_armob := demo_armob; looper_list := None; looper_heat := true |})
    = 4%Z /\
  exists bonelist : list BoneData,
    gpencil_bone_looper demo_bones (bone_skinnable_cb (lib := demo_armature_lib))
      {| looper_armob := demo_armob; looper_list := Some []; looper_heat := true |}
    = (4%Z, {| looper_armob := demo_armob; looper_list := Some bonelist;
               looper_heat := true |}) /\
    Z.of_nat (List.length bonelist) = 4%Z.
Proof.
  split; [reflexivity |].
  destruct (gpencil_skinnable_passes_agree demo_armature_lib demo_armob true demo_bones)
    as (_ & _ & Hlist & _).
  - cbn. repeat split; discriminate.
  - exact Hlist.
Defined.

(** X18.  Creating the vertex groups: the looper with
    [vgroup_add_unique_bone_cb] returns a count between 0 and the number
    of bones, and when the count is 0 the object is the one it was given
    (no group was added), which is what the [if (defbase_add)] test of
    the caller relies on. *)
Theorem vgroup_add_unique_count :
  forall (lib : ArmatureLib) (bone : Bone) (ob : GpObject),
    let r := gpencil_bone_looper bone vgroup_add_unique_bone_cb ob in
    (0 <= fst r <= Z.of_nat (List.length (bone_preorder bone)))%Z /\
    (fst r = 0%Z -> snd r = ob).
Proof.
  intros lib bone. induction bone as [| b child IHc next IHn]; intros ob r; subst r.
  - cbn. split; [lia | reflexivity].
  - cbn [gpencil_bone_looper bone_preorder List.length].
    assert (Hcb : (0 <= fst (vgroup_add_unique_bone_cb ob b) <= 1)%Z /\
                  (fst (vgroup_add_unique_bone_cb ob b) = 0%Z ->
                   snd (vgroup_add_unique_bone_cb ob b) = ob)).
    { unfold vgroup_add_unique_bone_cb.
      destruct (negb (flag_set (bone_flag b) BONE_NO_DEFORM));
        [| cbn; split; [lia | reflexivity]].
      destruct (defgroup_find_name ob (bone_name b)); cbn [fst snd].
      - split; [lia | reflexivity].
      - split; [lia | discriminate]. }
    destruct (vgroup_add_unique_bone_cb ob b) as [c1 ob1]. cbn [fst snd] in Hcb.
    destruct Hcb as [Hc1 Hob1].
    specialize (IHc ob1). cbn zeta in IHc.
    destruct (gpencil_bone_looper child vgroup_add_unique_bone_cb ob1) as [c2 ob2].
    cbn [fst snd] in IHc. destruct IHc as [Hc2 Hob2].
    specialize (IHn ob2). cbn zeta in IHn.
    destruct (gpencil_bone_looper next vgroup_add_unique_bone_cb ob2) as [c3 ob3].
    cbn [fst snd] in IHn. destruct IHn as [Hc3 Hob3].
    cbn [fst snd]. rewrite length_app. split; [lia |].
    intros Hzero.
    rewrite Hob3 by lia. rewrite Hob2 by lia. apply Hob1. lia.
Qed.

(** The demo armature on an object that has the group "arm" already: only
    "hand" and the hidden "ghost" get a group. *)
Lemma vgroup_add_unique_count_witness :
  fst (gpencil_bone_looper demo_bones
         (vgroup_add_unique_bone_cb (lib := demo_armature_lib))
         [{| dg_name := "arm"; dg_flag := 0 |}]) = 2%Z /\
  snd (gpencil_bone_looper
         (MkBone {| bone_name := "arm"; bone_flag := 0; bone_layer := 1;
                    bone_segments := 3 |} NullBone NullBone)
         (vgroup_add_unique_bone_cb (lib := demo_armature_lib))
         [{| dg_name := "arm"; dg_flag := 0 |}])
    = [{| dg_name := "arm"; dg_flag := 0 |}].
Proof.
  split; [reflexivity |].
  apply (proj2 (vgroup_add_unique_count demo_armature_lib
                  (MkBone {| bone_name := "arm"; bone_flag := 0; bone_layer := 1;
                             bone_segments := 3 |} NullBone NullBone)
                  [{| dg_name := "arm"; dg_flag := 0 |}])).
  reflexivity.
Defined.

(** ** The smooth brush in both of its modes *)

Section EnhanceKernelMore.

Context {services : SculptServices}.
Variable data : SculptThreadedTaskData.

Lemma enhance_step_mask (bstrength : float) (test : vec3 -> option float)
    (ss : SculptSession) (v : SculptIdx) :
  ss_mask (enhance_details_vertex data bstrength test ss v) = ss_mask ss.
Proof.
  unfold enhance_details_vertex. cbn zeta. open_step; reflexivity.
Qed.

Lemma enhance_step_same_at (bstrength : float) (test : vec3 -> option float)
    (w : SculptIdx) (ss : SculptSession) (v : SculptIdx) :
  v <> w -> same_at (enhance_details_vertex data bstrength test ss v) ss w.
Proof.
  intros Hne. unfold enhance_details_vertex. cbn zeta.
  open_step; unfold same_at;
    cbn [set_co ss_co ss_mask ss_pbvh_update cache_surface_smooth_laplacian_disp];
    rewrite ?store_other_eq by exact Hne; repeat split.
Qed.

Lemma enhance_task_mask (n : Z) (ss : SculptSession) :
  ss_mask (do_enhance_details_brush_task_cb_ex data n ss) = ss_mask ss.
Proof.
  unfold do_enhance_details_brush_task_cb_ex. cbn zeta.
  apply (fold_field_kept _ ss_mask). intros s v. apply enhance_step_mask.
Qed.

Lemma enhance_task_outside (n : Z) (ss : SculptSession) (w : SculptIdx) :
  ~ In w (nth (Z.to_nat n) (data_nodes data) []) ->
  ss_co (do_enhance_details_brush_task_cb_ex data n ss) w = ss_co ss w.
Proof.
  intros Hnin. unfold do_enhance_details_brush_task_cb_ex. cbn zeta.
  apply (fold_same_at _ w); [| exact Hnin].
  intros s v Hne. apply enhance_step_same_at. exact Hne.
Qed.

Lemma smooth_task_outside (n : Z) (ss : SculptSession) (w : SculptIdx) :
  ~ In w (nth (Z.to_nat n) (data_nodes data) []) ->
  ss_co (do_smooth_brush_task_cb_ex data n ss) w = ss_co ss w.
Proof.
  intros Hnin. unfold do_smooth_brush_task_cb_ex. cbn zeta.
  apply (fold_same_at _ w); [| exact Hnin].
  intros s v Hne. apply smooth_step_same_at. exact Hne.
Qed.

End EnhanceKernelMore.

(** X19.  The smooth brush, in its regular and in its inverted (detail
    enhancement) mode alike, changes no mask and moves no vertex outside
    the nodes it is given, provided the two [ensure] functions of
    [sculpt.c] keep masks and positions. *)
Theorem SCULPT_do_smooth_brush_frame :
  forall (S : SculptServices) (Q : StrokeQueries) (sd : Sculpt) (ss : SculptSession)
         (nodes : list PBVHNode) (totnode : Z),
    (forall ss, ss_mask (SCULPT_vertex_random_access_ensure ss) = ss_mask ss) ->
    (forall ss, ss_mask (SCULPT_boundary_info_ensure ss) = ss_mask ss) ->
    (forall ss, ss_co (SCULPT_vertex_random_access_ensure ss) = ss_co ss) ->
    (forall ss, ss_co (SCULPT_boundary_info_ensure ss) = ss_co ss) ->
    let ss' := smooth_session (SCULPT_do_smooth_brush sd ss nodes totnode) in
    ss_mask ss' = ss_mask ss /\
    (forall w : SculptIdx,
        (forall node, In node nodes -> ~ In w node) -> ss_co ss' w = ss_co ss w).
Proof.
  intros S Q sd ss nodes totnode Hram Hbim Hrac Hbic ss'. subst ss'.
  unfold SCULPT_do_smooth_brush.
  destruct (Qle_bool (cache_bstrength ss) 0); cbn [smooth_session].
  - unfold SCULPT_enhance_details_brush. cbn zeta.
    set (ss2 := SCULPT_boundary_info_ensure (SCULPT_vertex_random_access_ensure ss)).
    set (ss3 := if SCULPT_stroke_is_first_brush_step ss2 then _ else ss2).
    assert (H3 : ss_mask ss3 = ss_mask ss /\ ss_co ss3 = ss_co ss).
    { subst ss3. destruct (SCULPT_stroke_is_first_brush_step ss2);
        cbn [set_detail_directions ss_mask ss_co]; subst ss2;
        rewrite Hbim, Hram, Hbic, Hrac; split; reflexivity. }
    destruct H3 as [Hm3 Hc3]. split.
    + rewrite <- Hm3. apply range_field_kept. intros n s1. apply enhance_task_mask.
    + intros w Hout. rewrite <- Hc3.
      apply (range_invariant (fun a b => ss_co a w = ss_co b w));
        [reflexivity | intros; congruence |].
      intros n s1. apply enhance_task_outside.
      apply node_of_nodes_avoids. exact Hout.
  - unfold SCULPT_smooth. cbn zeta.
    destruct (PBVHType_eqb (ss_pbvh_type ss) PBVH_FACES && negb (ss_pmap ss));
      cbn [smooth_session]; [split; reflexivity |].
    set (ss1 := if negb (PBVHType_eqb (ss_pbvh_type ss) PBVH_TRIMESH)
                then SCULPT_vertex_random_access_ensure ss else ss).
    assert (H2 : ss_mask (SCULPT_boundary_info_ensure ss1) = ss_mask ss /\
                 ss_co (SCULPT_boundary_info_ensure ss1) = ss_co ss).
    { rewrite Hbim, Hbic. subst ss1. destruct (negb _);
        [rewrite Hram, Hrac |]; split; reflexivity. }
    destruct H2 as [Hm2 Hc2]. split.
    + rewrite <- Hm2. apply fold_iterations_field_kept. intros s0 it.
      apply range_field_kept. intros n s1. apply smooth_task_mask_kept. reflexivity.
    + intros w Hout. rewrite <- Hc2.
      apply (iterations_invariant (fun a b => ss_co a w = ss_co b w));
        [reflexivity | intros; congruence |].
      intros s0 it.
      apply (range_invariant (fun a b => ss_co a w = ss_co b w));
        [reflexivity | intros; congruence |].
      intros n s1. apply smooth_task_outside.
      apply node_of_nodes_avoids. exact Hout.
Qed.

(** The demo mesh without boundary has the stroke strength -1/2 (inverted
    mode), the demo mesh the strength 1 (regular mode); over node [[0]]
    vertex 3 stays at (0, 0, 3) in both. *)
Lemma SCULPT_do_smooth_brush_frame_witness :
  ss_co (smooth_session
           (SCULPT_do_smooth_brush (services := full_brush_services)
              (stroke := first_step_queries) demo_sculpt demo_interior_session
              demo_single_node 1)) 3%Z = V3 0 0 3 /\
  ss_co (smooth_session
           (SCULPT_do_smooth_brush (services := full_brush_services)
              (stroke := first_step_queries) demo_sculpt demo_session
              demo_single_node 1)) 3%Z = V3 0 0 3 /\
  ss_mask (smooth_session
             (SCULPT_do_smooth_brush (services := full_brush_services)
                (stroke := first_step_queries) demo_sculpt demo_session
                demo_single_node 1)) = ss_mask demo_session.
Proof.
  assert (Hout : forall node, In node demo_single_node -> ~ In 3%Z node).
  { intros node [<- | []] [H | []]. discriminate H. }
  destruct (SCULPT_do_smooth_brush_frame full_brush_services first_step_queries
              demo_sculpt demo_interior_session demo_single_node 1)
    as [_ Hinv]; try (intros; reflexivity).
  destruct (SCULPT_do_smooth_brush_frame full_brush_services first_step_queries
              demo_sculpt demo_session demo_single_node 1)
    as [Hmask Hreg]; try (intros; reflexivity).
  split; [| split].
  - apply Hinv. exact Hout.
  - apply Hreg. exact Hout.
  - exact Hmask.
Defined.
